(** * download_articles.py: a shallow embedding and its properties

    The script reads a list of article identifiers, fetches the metadata
    of each article over HTTP, extracts the page images named in it,
    downloads them into a directory per article and collates the pages
    into one DjVu file with the external tools [cjb2] and [djvm].

    Pure Python code is embedded as Rocq functions.  Code that can raise
    returns a [result]; code that touches the file system, the network,
    the console or a subprocess runs in the monad [io] over a [world].
    What the script cannot decide itself (the server, the external
    tools, the search path, the clock, the JSON parser, [str()] of a
    value that is not a string) enters as a variable of the section
    [Script]. *)

From Stdlib Require Import ZArith Ascii String List Bool Arith Lia Permutation Sorted.
From stdpp Require Import base option list gmap strings sorting pretty.

Local Open Scope string_scope.
Local Open Scope list_scope.

(** ** Exceptions and results *)

Inductive exn : Type :=
| IndexError
| KeyError (key : string)
| TypeError
| JSONDecodeError
| FileNotFoundError
| FileExistsError
| IsADirectoryError
| NotADirectoryError
| CalledProcessError (args : list string) (code : Z)
| RequestException
| SystemExit (code : Z)
| Exception (msg : string).

Inductive result (A : Type) : Type :=
| Ok (a : A)
| Raise (e : exn).
Arguments Ok {A} a.
Arguments Raise {A} e.

#[global] Instance exn_eq_dec : EqDecision exn.
Proof. solve_decision. Defined.

Definition rbind {A B} (r : result A) (k : A -> result B) : result B :=
  match r with
  | Ok a => k a
  | Raise e => Raise e
  end.

Notation "'let!' x ':=' c 'in' k" := (rbind c (fun x => k))
  (at level 10, x pattern, c at level 100, k at level 200).

(** A list comprehension [[f x for x in l]] whose body can raise: the
    elements are evaluated from left to right and the first exception
    leaves the comprehension. *)
Fixpoint comp_map {A B} (f : A -> result B) (l : list A) : result (list B) :=
  match l with
  | [] => Ok []
  | x :: l' =>
      let! y := f x in
      let! ys := comp_map f l' in
      Ok (y :: ys)
  end.

(** [[x for x in l if p x]], with a condition that can raise. *)
Fixpoint comp_filter {A} (p : A -> result bool) (l : list A) : result (list A) :=
  match l with
  | [] => Ok []
  | x :: l' =>
      let! b := p x in
      let! xs := comp_filter p l' in
      Ok (if b then x :: xs else xs)
  end.

(** ** Python values, as [json.loads] builds them

    A dict keeps its keys in insertion order, so it is an association
    list; a number is carried by its literal, the script never computes
    with one. *)

#[warning="-register-all"]
Inductive pyval : Type :=
| PNone
| PBool (b : bool)
| PNum (literal : string)
| PStr (s : string)
| PList (items : list pyval)
| PDict (entries : list (string * pyval)).

Fixpoint dict_get (k : string) (d : list (string * pyval)) : option pyval :=
  match d with
  | [] => None
  | (k', v) :: d' => if String.eqb k k' then Some v else dict_get k d'
  end.

(** [x[k]] with a string [k]. *)
Definition getitem (x : pyval) (k : string) : result pyval :=
  match x with
  | PDict d =>
      match dict_get k d with
      | Some v => Ok v
      | None => Raise (KeyError k)
      end
  | _ => Raise TypeError
  end.

Fixpoint chars (s : string) : list pyval :=
  match s with
  | EmptyString => []
  | String c s' => PStr (String c EmptyString) :: chars s'
  end.

(** [for x in v]: a list gives its items, a dict its keys, a string its
    characters; nothing else is iterable. *)
Definition py_iter (v : pyval) : result (list pyval) :=
  match v with
  | PList l => Ok l
  | PDict d => Ok (map (fun kv => PStr (fst kv)) d)
  | PStr s => Ok (chars s)
  | _ => Raise TypeError
  end.

(** [v == s] for a string literal [s]. *)
Definition py_eq_str (v : pyval) (s : string) : bool :=
  match v with
  | PStr s' => String.eqb s' s
  | _ => false
  end.

(** [l[0]] *)
Definition index0 {A} (l : list A) : result A :=
  match l with
  | x :: _ => Ok x
  | [] => Raise IndexError
  end.

(** A Page Reference, the dict [{"filename": ..., "url": ...}].  The
    file name is whatever JSON value the metadata holds. *)
Record page_ref : Type := PageRef { filename : pyval; url : string }.

Section Extractor.

(** [str(v)] for a value that is not a string, as [str.format] needs
    it. *)
Variable str_of : pyval -> string.

(** The [json] module's parser. *)
Variable json_loads : string -> result pyval.

Definition format_arg (v : pyval) : string :=
  match v with
  | PStr s => s
  | _ => str_of v
  end.

Definition file_url (reference profile mimetype : pyval) : string :=
  "http://dokumentlager.nordiskamuseet.se/binaryDownload/"
    ++ format_arg reference ++ "?profile=" ++ format_arg profile
    ++ "&mimeType=" ++ format_arg mimetype.

Definition value_field (k : string) (x : pyval) : result pyval :=
  let! v := getitem x "value" in getitem v k.

(** [x["value"]["mimeType"] == "image/tiff"] *)
Definition tiff_cond (x : pyval) : result bool :=
  let! m := value_field "mimeType" x in Ok (py_eq_str m "image/tiff").

(** [x["entityType"] == "Resource"] *)
Definition resource_cond (x : pyval) : result bool :=
  let! t := getitem x "entityType" in Ok (py_eq_str t "Resource").

(** [x["properties"]["resource.originalFile"]] *)
Definition original_file (x : pyval) : result pyval :=
  let! p := getitem x "properties" in getitem p "resource.originalFile".

(** One turn of the loop [for fil in files]. *)
Definition path_of_file (fil : pyval) : result page_ref :=
  let! entries := py_iter fil in
  let! images := comp_filter tiff_cond entries in
  let! references := comp_map (value_field "reference") images in
  let! reference := index0 references in
  let! mimetypes := comp_map (value_field "mimeType") images in
  let! mimetype := index0 mimetypes in
  let! profiles := comp_map (value_field "profile") images in
  let! profile := index0 profiles in
  let! filenames := comp_map (value_field "originalFileName") images in
  let! filename := index0 filenames in
  Ok (PageRef filename (file_url reference profile mimetype)).

(** The body of [get_image_paths] after [json.loads]. *)
Definition extract_paths (article_data : pyval) : result (list page_ref) :=
  let! records := py_iter article_data in
  let! resources := comp_filter resource_cond records in
  let! files := comp_map original_file resources in
  comp_map path_of_file files.

Definition get_image_paths (article_data : string) : result (list page_ref) :=
  let! parsed := json_loads article_data in
  extract_paths parsed.

End Extractor.

(** ** The shape of a metadata response

    These functions read a response the way the specification describes
    it; they never raise.  The theorems below relate them to
    [extract_paths]. *)

Definition lookup_key (k : string) (x : pyval) : option pyval :=
  match x with
  | PDict d => dict_get k d
  | _ => None
  end.

Definition entry_field (k : string) (entry : pyval) : option pyval :=
  match lookup_key "value" entry with
  | Some v => lookup_key k v
  | None => None
  end.

Definition is_tiff (entry : pyval) : bool :=
  match entry_field "mimeType" entry with
  | Some m => py_eq_str m "image/tiff"
  | None => false
  end.

Definition tracked (record : pyval) : bool :=
  match lookup_key "entityType" record with
  | Some t => py_eq_str t "Resource"
  | None => false
  end.

(** The nested original-file list of a record. *)
Definition file_list (record : pyval) : option (list pyval) :=
  match lookup_key "properties" record with
  | Some p =>
      match lookup_key "resource.originalFile" p with
      | Some (PList l) => Some l
      | _ => None
      end
  | None => None
  end.

Definition tiff_entries (record : pyval) : list pyval :=
  match file_list record with
  | Some l => List.filter is_tiff l
  | None => []
  end.

Definition has_tiff (record : pyval) : bool :=
  match tiff_entries record with
  | [] => false
  | _ :: _ => true
  end.

Definition has_field (k : string) (entry : pyval) : bool :=
  match entry_field k entry with Some _ => true | None => false end.

(** A file entry of the known shape: it declares a MIME type, and an
    image/tiff entry also carries a reference, a profile and its original
    file name. *)
Definition entry_shaped (entry : pyval) : bool :=
  has_field "mimeType" entry
  && (negb (is_tiff entry)
      || (has_field "reference" entry && has_field "profile" entry
          && has_field "originalFileName" entry)).

(** A record of the known shape: it has an entity kind, and a tracked
    record has a file list of shaped entries. *)
Definition record_shaped (record : pyval) : bool :=
  match lookup_key "entityType" record with
  | None => false
  | Some _ =>
      negb (tracked record)
      || match file_list record with
         | Some l => forallb entry_shaped l
         | None => false
         end
  end.

Definition known_shape (response : pyval) : bool :=
  match response with
  | PList records => forallb record_shaped records
  | _ => false
  end.

(** *** Responses with a key missing

    The parts have the types the script expects (dicts and lists), but
    an expected key may be absent. *)

Definition is_dict (v : pyval) : bool :=
  match v with
  | PDict _ => true
  | _ => false
  end.

Definition has_key (k : string) (x : pyval) : bool :=
  match lookup_key k x with Some _ => true | None => false end.

(** [x["properties"]["resource.originalFile"]], when both keys are
    there *)
Definition file_value (record : pyval) : option pyval :=
  match lookup_key "properties" record with
  | Some p => lookup_key "resource.originalFile" p
  | None => None
  end.

Definition properties_typed (record : pyval) : bool :=
  match lookup_key "properties" record with
  | Some p => is_dict p
  | None => true
  end.

Definition entry_typed (entry : pyval) : bool :=
  is_dict entry
  && match lookup_key "value" entry with
     | Some v => is_dict v
     | None => true
     end.

(** Some record lacks the entity-kind field. *)
Definition lacks_entity_kind (records : list pyval) : bool :=
  forallb is_dict records && existsb (fun r => negb (has_key "entityType" r)) records.

(** Some tracked record lacks the properties map or the nested
    original-file property. *)
Definition lacks_file_list (records : list pyval) : bool :=
  forallb (has_key "entityType") records
  && forallb properties_typed (List.filter tracked records)
  && existsb (fun r => negb (bool_decide (is_Some (file_value r))))
       (List.filter tracked records).

(** A tracked record whose file list is in order, with an image/tiff
    entry. *)
Definition record_fine (record : pyval) : bool :=
  match file_list record with
  | Some l => forallb entry_shaped l && has_tiff record
  | None => false
  end.

(** A tracked record with a file entry that lacks [value] or
    [mimeType]. *)
Definition record_lacks_entry_key (record : pyval) : bool :=
  match file_list record with
  | Some l => forallb entry_typed l && existsb (fun e => negb (has_field "mimeType" e)) l
  | None => false
  end.

(** The first tracked record that is not fine lacks an entry key. *)
Fixpoint entry_key_first (tracked_records : list pyval) : bool :=
  match tracked_records with
  | [] => false
  | r :: rest => if record_fine r then entry_key_first rest else record_lacks_entry_key r
  end.

Definition lacks_entry_key (records : list pyval) : bool :=
  forallb (has_key "entityType") records
  && forallb (fun r => bool_decide (is_Some (file_value r))) (List.filter tracked records)
  && entry_key_first (List.filter tracked records).

Definition records_of (response : pyval) : list pyval :=
  match response with
  | PList records => records
  | _ => []
  end.

Definition tracked_records (response : pyval) : list pyval :=
  List.filter tracked (records_of response).

(** ** Strings: [str.strip], [readlines], [endswith], [sorted]

    A character is a code point below 256. *)

Definition ch_lf : ascii := "010"%char.
Definition ch_cr : ascii := "013"%char.
Definition ch_slash : ascii := "/"%char.

(** [str.isspace] on the code points below 256: tab to carriage return,
    the four separators 28 to 31, the space, NEL and the no-break
    space. *)
Definition is_space (c : ascii) : bool :=
  let n := nat_of_ascii c in
  (((9 <=? n) && (n <=? 13)) || ((28 <=? n) && (n <=? 32))
   || (n =? 133) || (n =? 160))%nat.

Fixpoint lstrip (s : string) : string :=
  match s with
  | EmptyString => EmptyString
  | String c s' => if is_space c then lstrip s' else s
  end.

Fixpoint rstrip (s : string) : string :=
  match s with
  | EmptyString => EmptyString
  | String c s' =>
      match rstrip s' with
      | EmptyString => if is_space c then EmptyString else String c EmptyString
      | r => String c r
      end
  end.

Definition strip (s : string) : string := rstrip (lstrip s).

(** Reading in text mode translates a carriage return, with or without
    a line feed after it, into a line feed. *)
Fixpoint universal_newlines (s : string) : string :=
  match s with
  | EmptyString => EmptyString
  | String c s' =>
      if Ascii.eqb c ch_cr then
        match s' with
        | String c' _ =>
            if Ascii.eqb c' ch_lf then universal_newlines s'
            else String ch_lf (universal_newlines s')
        | EmptyString => String ch_lf EmptyString
        end
      else String c (universal_newlines s')
  end.

(** [readlines]: the text cut after every line feed, each line keeping
    its line feed. *)
Fixpoint readlines (s : string) : list string :=
  match s with
  | EmptyString => []
  | String c s' =>
      if Ascii.eqb c ch_lf then String c EmptyString :: readlines s'
      else
        match readlines s' with
        | [] => [String c EmptyString]
        | l :: ls => String c l :: ls
        end
  end.

Fixpoint last_char (s : string) : option ascii :=
  match s with
  | EmptyString => None
  | String c EmptyString => Some c
  | String _ s' => last_char s'
  end.

(** A string with no whitespace at either end. *)
Definition stripped (s : string) : bool :=
  match s with
  | EmptyString => true
  | String c _ => negb (is_space c)
  end
  && match last_char s with
     | Some c => negb (is_space c)
     | None => true
     end.

(** A line as [readlines] cuts it: not empty, with no line feed before
    its last character. *)
Fixpoint one_line (s : string) : bool :=
  match s with
  | EmptyString => false
  | String c EmptyString => true
  | String c s' => negb (Ascii.eqb c ch_lf) && one_line s'
  end.

Definition join_lines (lines : list string) : string :=
  fold_right String.append EmptyString lines.

Definition endswith (s suffix : string) : bool :=
  let n := String.length s in
  let m := String.length suffix in
  (m <=? n)%nat && String.eqb (substring (n - m) m s) suffix.

Definition str_le (s1 s2 : string) : Prop := String.leb s1 s2 = true.

#[global] Instance str_le_dec : RelDecision str_le.
Proof. intros s1 s2. unfold str_le. apply bool_eq_dec. Defined.

(** [sorted] on a list of strings. *)
Definition py_sorted (l : list string) : list string := merge_sort str_le l.

(** [enumerate(l, start)] *)
Fixpoint enumerate {A} (start : nat) (l : list A) : list (nat * A) :=
  match l with
  | [] => []
  | x :: l' => (start, x) :: enumerate (S start) l'
  end.

(** ** Paths *)

Fixpoint has_slash (s : string) : bool :=
  match s with
  | EmptyString => false
  | String c s' => Ascii.eqb c ch_slash || has_slash s'
  end.

Definition starts_with_slash (s : string) : bool :=
  match s with
  | String c _ => Ascii.eqb c ch_slash
  | EmptyString => false
  end.

Fixpoint ends_with_slash (s : string) : bool :=
  match s with
  | EmptyString => false
  | String c EmptyString => Ascii.eqb c ch_slash
  | String _ s' => ends_with_slash s'
  end.

(** What [os.path.join a] puts in front of a relative second part. *)
Definition dir_prefix (a : string) : string :=
  match a with
  | EmptyString => EmptyString
  | _ => if ends_with_slash a then a else a ++ "/"
  end.

Definition os_path_join (a b : string) : string :=
  if starts_with_slash b then b else dir_prefix a ++ b.

Fixpoint strip_prefix (pre s : string) : option string :=
  match pre with
  | EmptyString => Some s
  | String a pre' =>
      match s with
      | String b s' => if Ascii.eqb a b then strip_prefix pre' s' else None
      | EmptyString => None
      end
  end.

(** The part of a path before its last slash, when it has one. *)
Fixpoint split_last (p : string) : option (string * string) :=
  match p with
  | EmptyString => None
  | String c p' =>
      match split_last p' with
      | Some (h, t) => Some (String c h, t)
      | None => if Ascii.eqb c ch_slash then Some (EmptyString, p') else None
      end
  end.

(** ** The world: a file system and the record of what the script did

    A path names a file verbatim: the file system is a finite map from
    path strings to nodes, without links, permissions, [.] or [..].  The
    working directory is the one place that always exists. *)

Inductive node : Type :=
| File (content : string)
| Dir.

(** The trace records a call when it is made, whether it succeeds or
    raises. *)
Inductive event : Type :=
| EPrint (line : string)
| EPrintRef (r : page_ref)
| EGet (url : string) (auth : option (string * string))
| ERun (args : list string)
| EMkdir (path : string)
| EWrite (path : string) (content : string)
| EAppend (path : string) (text : string)
| ERemove (path : string).

Record world : Type := World {
  fs : gmap string node;
  trace : list event
}.

Definition io (A : Type) : Type := world -> result A * world.

Definition ret {A} (a : A) : io A := fun w => (Ok a, w).

Definition raise {A} (e : exn) : io A := fun w => (Raise e, w).

Definition bind {A B} (k : A -> io B) (c : io A) : io B :=
  fun w =>
    match c w with
    | (Ok a, w') => k a w'
    | (Raise e, w') => (Raise e, w')
    end.

(** [x ← c; k] and [c;; k] below are [bind] on [io]. *)
#[global] Instance io_bind : MBind io := @bind.
#[global] Instance io_ret : MRet io := @ret.

Definition lift {A} (r : result A) : io A := fun w => (r, w).

Definition emit (e : event) : io unit :=
  fun w => (Ok tt, World (fs w) (trace w ++ [e])).

(** [for x in l: body x] *)
Fixpoint for_each {A} (l : list A) (body : A -> io unit) : io unit :=
  match l with
  | [] => ret tt
  | x :: l' => body x;; for_each l' body
  end.

(** [try: body / except IndexError: handler] *)
Definition try_except_IndexError {A} (body : io A) (handler : io A) : io A :=
  fun w =>
    match body w with
    | (Raise IndexError, w') => handler w'
    | r => r
    end.

(** *** Operating-system calls *)

(** Can an entry be made at [p]?  Its parent has to be a directory. *)
Definition parent_check (m : gmap string node) (p : string) : result unit :=
  match p with
  | EmptyString => Raise FileNotFoundError
  | _ =>
      match split_last p with
      | None => Ok tt
      | Some (EmptyString, _) => Ok tt
      | Some (h, _) =>
          match m !! h with
          | Some Dir => Ok tt
          | Some (File _) => Raise NotADirectoryError
          | None => Raise FileNotFoundError
          end
      end
  end.

Definition os_path_exists (p : string) : io bool :=
  fun w => (Ok (bool_decide (is_Some (fs w !! p))), w).

Definition os_mkdir (p : string) : io unit :=
  emit (EMkdir p);;
  ((fun w =>
    match fs w !! p with
    | Some _ => (Raise FileExistsError, w)
    | None =>
        match parent_check (fs w) p with
        | Ok _ => (Ok tt, World (<[p := Dir]> (fs w)) (trace w))
        | Raise e => (Raise e, w)
        end
    end) : io unit).

(** [open(p).read()] in text mode *)
Definition open_read (p : string) : io string :=
  fun w =>
    match fs w !! p with
    | Some (File c) => (Ok (universal_newlines c), w)
    | Some Dir => (Raise IsADirectoryError, w)
    | None => (Raise FileNotFoundError, w)
    end.

(** [open(p, 'wb').write(content)] *)
Definition open_write (p content : string) : io unit :=
  emit (EWrite p content);;
  ((fun w =>
    match fs w !! p with
    | Some Dir => (Raise IsADirectoryError, w)
    | _ =>
        match parent_check (fs w) p with
        | Ok _ => (Ok tt, World (<[p := File content]> (fs w)) (trace w))
        | Raise e => (Raise e, w)
        end
    end) : io unit).

(** [open(p, 'a').write(text)] *)
Definition open_append (p text : string) : io unit :=
  emit (EAppend p text);;
  ((fun w =>
    match fs w !! p with
    | Some Dir => (Raise IsADirectoryError, w)
    | Some (File c) => (Ok tt, World (<[p := File (c ++ text)]> (fs w)) (trace w))
    | None =>
        match parent_check (fs w) p with
        | Ok _ => (Ok tt, World (<[p := File text]> (fs w)) (trace w))
        | Raise e => (Raise e, w)
        end
    end) : io unit).

Definition os_remove (p : string) : io unit :=
  emit (ERemove p);;
  ((fun w =>
    match fs w !! p with
    | Some (File _) => (Ok tt, World (delete p (fs w)) (trace w))
    | Some Dir => (Raise IsADirectoryError, w)
    | None => (Raise FileNotFoundError, w)
    end) : io unit).

(** The name under which [k] is an entry of the directory [p]. *)
Definition child_name (p k : string) : option string :=
  match strip_prefix (dir_prefix p) k with
  | Some n =>
      match n with
      | EmptyString => None
      | _ => if has_slash n then None else Some n
      end
  | None => None
  end.

Definition dir_entries (m : gmap string node) (p : string) : list string :=
  omap (fun kv => child_name p (fst kv)) (map_to_list m).

(** [os.listdir]: the entries come in the order in which the map
    enumerates them, an order no statement relies on. *)
Definition os_listdir (p : string) : io (list string) :=
  fun w =>
    match fs w !! p with
    | Some Dir => (Ok (dir_entries (fs w) p), w)
    | Some (File _) => (Raise NotADirectoryError, w)
    | None => (Raise FileNotFoundError, w)
    end.

Definition print (line : string) : io unit := emit (EPrint line).

(** The world once the script has made sure that the directory [d]
    exists: nothing happens when something is there already. *)
Definition ensured (d : string) (w : world) : world :=
  match fs w !! d with
  | Some _ => w
  | None => World (<[d := Dir]> (fs w)) (trace w ++ [EMkdir d])
  end.

(** A plain name: not empty, no slash. *)
Definition plain_name (s : string) : bool :=
  match s with
  | EmptyString => false
  | _ => negb (has_slash s)
  end.

(** Can [open(p, 'a')] open [p]?  And what does the file hold so far? *)
Definition appendable (m : gmap string node) (p : string) : bool :=
  match m !! p with
  | Some (File _) => true
  | Some Dir => false
  | None => match parent_check m p with Ok _ => true | Raise _ => false end
  end.

Definition text_of (m : gmap string node) (p : string) : string :=
  match m !! p with
  | Some (File c) => c
  | _ => EmptyString
  end.

(** What running an external command does: it is not found, or it
    leaves the file system in some state and exits with a code. *)
Inductive exec_result : Type :=
| NoSuchProgram
| Exited (code : Z) (after : gmap string node).

(** ** The script *)

Section Script.

(** [str()] of a value that is not a string, and [json.loads]. *)
Variable str_of : pyval -> string.
Variable json_loads : string -> result pyval.

(** The server: the body it answers a GET with, or the exception the
    request ends in.  It answers a URL the same way throughout a
    run. *)
Variable http_get : string -> option (string * string) -> result string.

(** The external tools, [shutil.which], [time.strftime], and the
    credentials of the module [config]. *)
Variable exec : list string -> gmap string node -> exec_result.
Variable which : string -> option string.
Variable strftime : string -> string.
Variable username password : string.

(** [requests.get(url, auth=auth)], read through [.text] or
    [.content] *)
Definition requests_get (url : string) (auth : option (string * string)) : io string :=
  emit (EGet url auth);; lift (http_get url auth).

(** [subprocess.run(args, check=True)] *)
Definition run (args : list string) : io unit :=
  emit (ERun args);;
  ((fun w =>
    match exec args (fs w) with
    | NoSuchProgram => (Raise FileNotFoundError, w)
    | Exited code after =>
        (if (code =? 0)%Z then Ok tt else Raise (CalledProcessError args code),
         World after (trace w))
    end) : io unit).

Definition create_directory (dirname : string) : io string :=
  present ← os_path_exists dirname;
  (if negb present then os_mkdir dirname else mret tt);;
  mret dirname.

Definition file_to_list (filename : string) : io (list string) :=
  meat ← open_read filename;
  mret (map strip (readlines meat)).

Definition generate_url (internal_id : string) : string :=
  "https://dokumentlager.nordiskamuseet.se/api/list/" ++ internal_id ++ "/0/500".

(** [os.path.join(target_dir, url["filename"])]: the second part has
    to be a string. *)
Definition join_filename (target_dir : string) (name : pyval) : result string :=
  match name with
  | PStr f => Ok (os_path_join target_dir f)
  | _ => Raise TypeError
  end.

Definition download_images (url_list : list page_ref) (internal_id : string) : io unit :=
  target_dir ← create_directory internal_id;
  for_each url_list (fun url_ =>
    path ← lift (join_filename target_dir (filename url_));
    emit (EPrintRef url_);;
    img_data ← requests_get (url url_) None;
    open_write path img_data).

(** What the download of one reference amounts to: the file it goes
    to, the body the server answers with, and the calls made. *)
Definition name_of (r : page_ref) : string :=
  match filename r with
  | PStr f => f
  | _ => EmptyString
  end.

Definition target (internal_id : string) (r : page_ref) : string :=
  os_path_join internal_id (name_of r).

Definition body_of (r : page_ref) : string :=
  match http_get (url r) None with
  | Ok body => body
  | Raise _ => EmptyString
  end.

Definition download_events (internal_id : string) (r : page_ref) : list event :=
  [EPrintRef r; EGet (url r) None; EWrite (target internal_id r) (body_of r)].

(** The file system with the bodies of the references stored, one
    after the other. *)
Definition stored (internal_id : string) (refs : list page_ref) (m : gmap string node)
  : gmap string node :=
  fold_left (fun m' r => <[target internal_id r := File (body_of r)]> m') refs m.

(** A reference that can be downloaded: its file name is a plain name,
    the server answers its URL, and no directory is in the way. *)
Definition downloadable (m : gmap string node) (internal_id : string) (r : page_ref)
  : bool :=
  match filename r with
  | PStr f => plain_name f
  | _ => false
  end
  && match http_get (url r) None with
     | Ok _ => true
     | Raise _ => false
     end
  && match m !! target internal_id r with
     | Some Dir => false
     | _ => true
     end.

(** The workspace can be used: no file has its name. *)
Definition workspace_usable (m : gmap string node) (internal_id : string) : bool :=
  match m !! internal_id with
  | Some (File _) => false
  | _ => true
  end.

Definition download_files_of_article (internal_id : string) : io unit :=
  print ("Downloading files of " ++ internal_id);;
  let url := generate_url internal_id in
  let auth := (username, password) in
  response ← requests_get url (Some auth);
  article_images ← lift (get_image_paths str_of json_loads response);
  download_images article_images internal_id.

(** The world once the metadata of an article has been asked for. *)
Definition fetched (internal_id : string) (w : world) : world :=
  World (fs w)
    (trace w ++ [EPrint ("Downloading files of " ++ internal_id);
                 EGet (generate_url internal_id) (Some (username, password))]).

Definition tmp_djvu : string := "tmp.djvu".

Definition book_djvu (target_dir dirname : string) : string :=
  os_path_join target_dir (dirname ++ ".djvu").

(** The pages of a directory listing, as [create_djvu] orders them. *)
Definition pages_of (listing : list string) : list string :=
  py_sorted (List.filter (fun x => endswith x ".tif") listing).

(** The body of the loop over the numbered pages. *)
Definition convert_page (dirname book : string) (ip : nat * string) : io unit :=
  let (i, page) := ip in
  run ["cjb2"; "-clean"; os_path_join dirname page; tmp_djvu];;
  if (i =? 1)%nat then run ["djvm"; "-c"; book; tmp_djvu]
  else run ["djvm"; "-i"; book; tmp_djvu].

(** The commands of the assembly as the specification lists them: each
    page is encoded; the first page creates the document, every later
    page is inserted into it. *)
Definition encode_cmd (dirname page : string) : list string :=
  ["cjb2"; "-clean"; os_path_join dirname page; tmp_djvu].

Definition create_cmd (book : string) : list string :=
  ["djvm"; "-c"; book; tmp_djvu].

Definition insert_cmd (book : string) : list string :=
  ["djvm"; "-i"; book; tmp_djvu].

(** The command that follows the encoding of the page numbered [i]. *)
Definition merge_cmd (book : string) (i : nat) : list string :=
  if (i =? 1)%nat then create_cmd book else insert_cmd book.

Definition assembly_commands (dirname book : string) (pages : list string)
  : list (list string) :=
  match pages with
  | [] => []
  | first :: others =>
      [encode_cmd dirname first; create_cmd book]
        ++ flat_map (fun page => [encode_cmd dirname page; insert_cmd book]) others
  end.

(** How many of the commands call the merger with the given flag. *)
Definition is_merge (flag : string) (cmd : list string) : bool :=
  match cmd with
  | prog :: f :: _ => String.eqb prog "djvm" && String.eqb f flag
  | _ => false
  end.

Definition merge_count (flag : string) (cmds : list (list string)) : nat :=
  length (List.filter (is_merge flag) cmds).

(** The external commands of a trace, in the order in which they were
    run. *)
Definition commands_run (tr : list event) : list (list string) :=
  omap (fun e => match e with ERun args => Some args | _ => None end) tr.

(** The file system after a sequence of commands, and whether each of
    them, run in its turn, exits with status 0. *)
Fixpoint run_all (cmds : list (list string)) (m : gmap string node) : gmap string node :=
  match cmds with
  | [] => m
  | args :: rest =>
      match exec args m with
      | Exited _ after => run_all rest after
      | NoSuchProgram => run_all rest m
      end
  end.

Fixpoint all_succeed (cmds : list (list string)) (m : gmap string node) : bool :=
  match cmds with
  | [] => true
  | args :: rest =>
      match exec args m with
      | Exited code after => (code =? 0)%Z && all_succeed rest after
      | NoSuchProgram => false
      end
  end.

(** The progress bar that [tqdm] draws around the loop is left out. *)
Definition create_djvu (dirname : string) : io unit :=
  target_dir ← create_directory "output";
  let book := book_djvu target_dir dirname in
  listing ← os_listdir dirname;
  let files := pages_of listing in
  for_each (enumerate 1 files) (convert_page dirname book);;
  os_remove tmp_djvu.

Definition start_error_log : string :=
  strftime "%Y%m%d-%H%M%S" ++ ".log".

Definition log_weird_article (internal_id error_log : string) : io unit :=
  open_append error_log (internal_id ++ String ch_lf EmptyString).

(** One turn of the loop of [main]; [continue] leaves the turn. *)
Definition process_article (error_log int_id : string) : io unit :=
  proceed ← try_except_IndexError
    (download_files_of_article int_id;; mret true)
    (log_weird_article int_id error_log;; mret false);
  if (proceed : bool) then create_djvu int_id else mret tt.

(** [open(arguments.get("list"))]: a missing key gives [None], which
    [open] refuses. *)
Definition main (arguments : gmap string string) : io unit :=
  let error_log := start_error_log in
  ids ← match arguments !! "list" with
        | Some filename => file_to_list filename
        | None => raise TypeError
        end;
  print ("Loaded " ++ pretty (length ids) ++ " internal ID's.");;
  for_each ids (process_article error_log).

Definition can_djvu : bool :=
  bool_decide (which "djvm" ≠ None) && bool_decide (which "cjb2" ≠ None).

(** The block under [if __name__ == "__main__"].  [list_option] is the
    value given to [--list] on the command line, if any; without it
    [parse_args] leaves the process with status 2. *)
Definition script (list_option : option string) : io unit :=
  if negb can_djvu then raise (Exception "Djvu utils djvm and cjb2 not found.")
  else
    match list_option with
    | Some filename => main {[ "list" := filename ]}
    | None => raise (SystemExit 2)
    end.

End Script.

(** ** The Page Reference the specification describes *)

Definition field (k : string) (entry : pyval) : pyval :=
  match entry_field k entry with
  | Some v => v
  | None => PNone
  end.

Section PageOf.

Variable str_of : pyval -> string.

(** The reference of one file entry: the URL from the binaryDownload
    template with its reference, profile and MIME type, and its
    original file name. *)
Definition page_of_entry (entry : pyval) : page_ref :=
  PageRef (field "originalFileName" entry)
    (file_url str_of (field "reference" entry) (field "profile" entry)
       (field "mimeType" entry)).

(** The reference of a record is that of its first image/tiff entry. *)
Definition page_of_record (record : pyval) : option page_ref :=
  match tiff_entries record with
  | e :: _ => Some (page_of_entry e)
  | [] => None
  end.

(** What a tracked record comes to: its reference, or the indexing
    error when it has no image/tiff entry. *)
Definition record_outcome (record : pyval) : result page_ref :=
  match page_of_record record with
  | Some p => Ok p
  | None => Raise IndexError
  end.

End PageOf.

(** ** Further notions

    Used by the properties that go beyond the claims. *)

Fixpoint has_char (c : ascii) (s : string) : bool :=
  match s with
  | EmptyString => false
  | String a s' => Ascii.eqb a c || has_char c s'
  end.

(** An identifier as the loader returns it: no whitespace at either
    end, and no line break inside. *)
Definition clean (id : string) : bool :=
  stripped id && negb (has_char ch_lf id) && negb (has_char ch_cr id).

(** The text of a file that holds the given lines, each closed by a
    line feed. *)
Definition lines_text (ids : list string) : string :=
  fold_right (fun id rest => id ++ String ch_lf rest)%string EmptyString ids.

(** A response that is not a list of records at the top: an object
    with at least one key, a string with at least one character, a
    number, a boolean or null. *)
Definition not_a_list (response : pyval) : bool :=
  match response with
  | PList _ => false
  | PDict [] => false
  | PStr EmptyString => false
  | _ => true
  end.

(** An image/tiff entry that lacks one of the fields read from it. *)
Definition incomplete (entry : pyval) : bool :=
  negb (has_field "reference" entry && has_field "profile" entry
        && has_field "originalFileName" entry).

(** *** Skipped articles and the error log *)

Section Skipping.

Variable json_loads : string -> result pyval.
Variable http_get : string -> option (string * string) -> result string.
Variable username password : string.

(** An article whose metadata arrives, has the known shape, and holds
    a tracked record without image/tiff entry. *)
Definition malformed_article (internal_id : string) : bool :=
  match http_get (generate_url internal_id) (Some (username, password)) with
  | Ok body =>
      match json_loads body with
      | Ok response =>
          known_shape response
          && existsb (fun r => negb (has_tiff r)) (tracked_records response)
      | Raise _ => false
      end
  | Raise _ => false
  end.

(** What the Driver does for an article it skips. *)
Definition skip_events (error_log internal_id : string) : list event :=
  [EPrint ("Downloading files of " ++ internal_id);
   EGet (generate_url internal_id) (Some (username, password));
   EAppend error_log (internal_id ++ String ch_lf EmptyString)].

End Skipping.

(** The file system once the identifiers have been appended to the
    log. *)
Definition logged (error_log : string) (ids : list string) (m : gmap string node)
  : gmap string node :=
  match ids with
  | [] => m
  | _ => <[error_log := File (text_of m error_log ++ lines_text ids)]> m
  end.

(** The identifiers that [main] loads in a world. *)
Definition loaded_ids (arguments : gmap string string) (w : world) : list string :=
  match arguments !! "list" with
  | Some filename =>
      match fs w !! filename with
      | Some (File content) => map strip (readlines (universal_newlines content))
      | _ => []
      end
  | None => []
  end.

(** *** What a computation adds to the trace *)

(** Every event that [c] adds to the trace, from whatever world,
    satisfies [P]. *)
Definition emits {A} (P : event -> Prop) (c : io A) : Prop :=
  forall w, exists delta, trace (snd (c w)) = trace w ++ delta /\ Forall P delta.

(** The requests the script may make: with the configured credentials
    to the metadata URL of a listed identifier, without credentials to
    a binaryDownload URL. *)
Definition request_allowed (ids : list string) (username password : string) (e : event)
  : Prop :=
  match e with
  | EGet u (Some a) =>
      a = (username, password) /\ exists id, In id ids /\ u = generate_url id
  | EGet u None =>
      exists rest,
        u = ("http://dokumentlager.nordiskamuseet.se/binaryDownload/" ++ rest)%string
  | _ => True
  end.

(** The changes the script may make and the commands it may run:
    directories for the listed identifiers and the output, image files
    joined to a listed identifier, lines of listed identifiers in the
    error log, the removal of the temporary file, and the two tools. *)
Definition change_allowed (ids : list string) (error_log : string) (e : event) : Prop :=
  match e with
  | EMkdir p => p = "output" \/ In p ids
  | EWrite p _ => exists id name, In id ids /\ p = os_path_join id name
  | EAppend p text =>
      p = error_log
      /\ exists id, In id ids /\ text = (id ++ String ch_lf EmptyString)%string
  | ERemove p => p = "tmp.djvu"
  | ERun args => exists rest, args = "cjb2" :: rest \/ args = "djvm" :: rest
  | _ => True
  end.

Definition allowed (ids : list string) (username password error_log : string) (e : event)
  : Prop :=
  request_allowed ids username password e /\ change_allowed ids error_log e.

(** *** An article from the request to the document *)

Section WholeArticle.

Variable http_get : string -> option (string * string) -> result string.
Variable username password : string.

(** The world once the metadata of the article have been fetched and
    its references downloaded. *)
Definition downloaded (internal_id : string) (refs : list page_ref) (w : world) : world :=
  World
    (stored http_get internal_id refs
       (fs (ensured internal_id (fetched username password internal_id w))))
    (trace (ensured internal_id (fetched username password internal_id w))
       ++ flat_map (download_events http_get internal_id) refs).

(** The commands that turn the downloaded references into the
    document. *)
Definition document_commands (internal_id : string) (refs : list page_ref)
  : list (list string) :=
  assembly_commands internal_id (book_djvu "output" internal_id)
    (py_sorted (List.filter (fun x => endswith x ".tif") (map name_of refs))).

End WholeArticle.

(** ** Concrete runs

    A small world to run the script in: a server with two articles, a
    parser that knows their metadata, and tools that always succeed. *)

Module Scenario.

(** No value below goes through [str()]: every formatted field is a
    string. *)
Definition str_unused (v : pyval) : string := "".

Definition file_entry (mime reference name : string) : pyval :=
  PDict [("value",
          PDict [("mimeType", PStr mime); ("reference", PStr reference);
                 ("profile", PStr "original"); ("originalFileName", PStr name)])].

Definition tiff (reference name : string) : pyval :=
  file_entry "image/tiff" reference name.

Definition jpeg (reference name : string) : pyval :=
  file_entry "image/jpeg" reference name.

Definition resource (files : list pyval) : pyval :=
  PDict [("entityType", PStr "Resource");
         ("properties", PDict [("resource.originalFile", PList files)])].

Definition article_record : pyval :=
  PDict [("entityType", PStr "Article"); ("properties", PDict [])].

(** Article [a1]: three pages, each with a JPEG and a TIFF rendition. *)
Definition meta_a1 : pyval :=
  PList [article_record;
         resource [jpeg "j1" "p1.jpg"; tiff "r1" "p1.tif"];
         resource [tiff "r2" "p2.tif"; jpeg "j2" "p2.jpg"];
         resource [tiff "r3" "p3.tif"]].

(** Article [a2]: its second page has no TIFF rendition. *)
Definition meta_a2 : pyval :=
  PList [article_record;
         resource [tiff "s1" "q1.tif"];
         resource [jpeg "k2" "q2.jpg"]].

(** An article whose only page has an empty original file name. *)
Definition meta_unnamed : pyval :=
  PList [resource [tiff "r" ""]].

(** Article [a3]: its first page has no rendition at all, and the
    only file entry of its second page has no [value]. *)
Definition meta_a3 : pyval :=
  PList [resource []; resource [PDict []]].

(** Article [a4]: the same two pages the other way round. *)
Definition meta_a4 : pyval :=
  PList [resource [PDict []]; resource []].

(** Article [a5]: a record of another kind without properties, and
    one page. *)
Definition meta_a5 : pyval :=
  PList [PDict [("entityType", PStr "Article")]; resource [tiff "r1" "p1.tif"]].

(** Article [a6]: no page at all. *)
Definition meta_a6 : pyval := PList [article_record].

(** The parser, on the response bodies of this server. *)
Definition loads (text : string) : result pyval :=
  if String.eqb text "metadata of a1" then Ok meta_a1
  else if String.eqb text "metadata of a2" then Ok meta_a2
  else if String.eqb text "metadata of a3" then Ok meta_a3
  else if String.eqb text "metadata of a4" then Ok meta_a4
  else if String.eqb text "metadata of a5" then Ok meta_a5
  else if String.eqb text "metadata of a6" then Ok meta_a6
  else if String.eqb text "metadata of unnamed" then Ok meta_unnamed
  else Raise JSONDecodeError.

Definition nl : string := String ch_lf EmptyString.

(** The input list: [a1], [a2], one per line. *)
Definition ids_txt : string := "a1" ++ nl ++ "a2" ++ nl.

(** An input list with a blank line between the identifiers, and
    space around the second. *)
Definition ids_blank_txt : string := "a1" ++ nl ++ nl ++ "  a2 " ++ nl.

Definition username : string := "operator".
Definition password : string := "secret".

Definition image_url (reference : string) : string :=
  "http://dokumentlager.nordiskamuseet.se/binaryDownload/" ++ reference
    ++ "?profile=original&mimeType=image/tiff".

Definition metadata_url (internal_id : string) : string :=
  "https://dokumentlager.nordiskamuseet.se/api/list/" ++ internal_id ++ "/0/500".

(** The server: metadata for [a1] to [a6] to the operator, the images
    to anybody, nothing else. *)
Definition http (url : string) (auth : option (string * string)) : result string :=
  match auth with
  | Some (u, p) =>
      if negb (String.eqb u username && String.eqb p password) then Raise RequestException
      else if String.eqb url (metadata_url "a1") then Ok "metadata of a1"
      else if String.eqb url (metadata_url "a2") then Ok "metadata of a2"
      else if String.eqb url (metadata_url "a3") then Ok "metadata of a3"
      else if String.eqb url (metadata_url "a4") then Ok "metadata of a4"
      else if String.eqb url (metadata_url "a5") then Ok "metadata of a5"
      else if String.eqb url (metadata_url "a6") then Ok "metadata of a6"
      else Raise RequestException
  | None =>
      if String.eqb url (image_url "r1") then Ok "TIFF one"
      else if String.eqb url (image_url "r2") then Ok "TIFF two"
      else if String.eqb url (image_url "r3") then Ok "TIFF three"
      else if String.eqb url (image_url "s1") then Ok "TIFF s-one"
      else Raise RequestException
  end.

(** Tools that always succeed: the encoder writes its output file,
    the merger starts or extends the document. *)
Definition tools (args : list string) (m : gmap string node) : exec_result :=
  match args with
  | [prog; flag; a; b] =>
      if String.eqb prog "cjb2" then
        Exited 0 (<[b := File ("djvu of " ++ text_of m a)%string]> m)
      else if String.eqb flag "-c" then
        Exited 0 (<[a := File (text_of m b)]> m)
      else
        Exited 0 (<[a := File (text_of m a ++ " + " ++ text_of m b)%string]> m)
  | _ => Exited 0 m
  end.

Definition which_all (name : string) : option string := Some ("/usr/bin/" ++ name)%string.

(** A search path with [djvm] but without [cjb2]. *)
Definition which_no_cjb2 (name : string) : option string :=
  if String.eqb name "cjb2" then None else Some ("/usr/bin/" ++ name)%string.

Definition clock (fmt : string) : string := "20240101-120000".

Definition error_log : string := "20240101-120000.log".

(** The working directory at the start of a run. *)
Definition start : world := World {[ "ids.txt" := File ids_txt ]} [].

(** The script's parts in this world. *)
Definition download (internal_id : string) : io unit :=
  download_files_of_article str_unused loads http username password internal_id.

Definition process (int_id : string) : io unit :=
  process_article str_unused loads http tools username password error_log int_id.

(** The references of article [a1]. *)
Definition refs_a1 : list page_ref :=
  [PageRef (PStr "p1.tif") (image_url "r1");
   PageRef (PStr "p2.tif") (image_url "r2");
   PageRef (PStr "p3.tif") (image_url "r3")].

(** The world once the images of [a1], or the nothing of [a6], have
    been downloaded. *)
Definition downloaded_a1 : world := snd (download "a1" start).

Definition downloaded_a6 : world := snd (download "a6" start).

(** The whole script on the input list [a1], [a2]. *)
Definition whole_run : result unit * world :=
  script str_unused loads http tools which_all clock username password
    (Some "ids.txt") start.

Definition commands_a1 : list (list string) :=
  [["cjb2"; "-clean"; "a1/p1.tif"; "tmp.djvu"]; ["djvm"; "-c"; "output/a1.djvu"; "tmp.djvu"];
   ["cjb2"; "-clean"; "a1/p2.tif"; "tmp.djvu"]; ["djvm"; "-i"; "output/a1.djvu"; "tmp.djvu"];
   ["cjb2"; "-clean"; "a1/p3.tif"; "tmp.djvu"]; ["djvm"; "-i"; "output/a1.djvu"; "tmp.djvu"]].

End Scenario.

(** ** More concrete runs *)

Module More.

(** Article [a7] does not exist: the server answers with the object of
    an error message. *)
Definition error_object : pyval := PDict [("error", PStr "no such article")].

(** The pages of article [a5] without its record of another kind. *)
Definition pages_a5 : pyval := PList [Scenario.resource [Scenario.tiff "r1" "p1.tif"]].

Definition loads (text : string) : result pyval :=
  if String.eqb text "metadata of a5 pages" then Ok pages_a5
  else if String.eqb text "metadata of a7" then Ok error_object
  else Scenario.loads text.

Definition http (url : string) (auth : option (string * string)) : result string :=
  match auth with
  | Some _ =>
      if String.eqb url (Scenario.metadata_url "a7") then Ok "metadata of a7"
      else Scenario.http url auth
  | None => Scenario.http url auth
  end.

Definition process (int_id : string) : io unit :=
  process_article Scenario.str_unused loads http Scenario.tools
    Scenario.username Scenario.password Scenario.error_log int_id.

(** References of [a1]: the first page, a page the server does not
    have, a page without a name, and a page with an absolute name. *)
Definition page1 : page_ref := PageRef (PStr "p1.tif") (Scenario.image_url "r1").

Definition page_gone : page_ref := PageRef (PStr "p2.tif") (Scenario.image_url "gone").

Definition page_unnamed : page_ref := PageRef PNone (Scenario.image_url "r2").

Definition page_absolute : page_ref := PageRef (PStr "/p1.tif") (Scenario.image_url "r1").

Definition page3 : page_ref := PageRef (PStr "p3.tif") (Scenario.image_url "r3").

(** A working directory in which a file is called [a1]. *)
Definition occupied : world := World {[ "a1" := File "not a directory" ]} [].

(** Tools of which the encoder fails on the second page of [a1]. *)
Definition failing_tools (args : list string) (m : gmap string node) : exec_result :=
  match args with
  | [prog; flag; a; b] =>
      if String.eqb prog "cjb2" && String.eqb a "a1/p2.tif" then Exited 1 m
      else Scenario.tools args m
  | _ => Scenario.tools args m
  end.

(** An input list that names the malformed article [a2] twice. *)
Definition twice_a2 : string :=
  ("a2" ++ Scenario.nl ++ "a2" ++ Scenario.nl)%string.

Definition start_twice : world := World {[ "ids.txt" := File twice_a2 ]} [].

End More.

(** * Properties *)

(** ** Comprehensions *)

Lemma comp_map_ok {A B} (f : A -> result B) (g : A -> B) (l : list A) :
  Forall (fun x => f x = Ok (g x)) l -> comp_map f l = Ok (map g l).
Proof.
  induction 1 as [|x l Hx _ IH]; simpl; [reflexivity|].
  rewrite Hx; simpl. rewrite IH. reflexivity.
Qed.

Lemma comp_filter_ok {A} (p : A -> result bool) (q : A -> bool) (l : list A) :
  Forall (fun x => p x = Ok (q x)) l -> comp_filter p l = Ok (List.filter q l).
Proof.
  induction 1 as [|x l Hx _ IH]; simpl; [reflexivity|].
  rewrite Hx; simpl. rewrite IH. reflexivity.
Qed.

(** The first element that raises decides the comprehension. *)
Lemma comp_map_raise {A B} (f : A -> result B) (l1 l2 : list A) (x : A) (e : exn) :
  Forall (fun y => exists b, f y = Ok b) l1 -> f x = Raise e ->
  comp_map f (l1 ++ x :: l2) = Raise e.
Proof.
  intros H Hx. induction H as [|y l1 [b Hy] _ IH]; simpl.
  - rewrite Hx. reflexivity.
  - rewrite Hy; simpl. rewrite IH. reflexivity.
Qed.

Lemma comp_filter_raise {A} (p : A -> result bool) (l1 l2 : list A) (x : A) (e : exn) :
  Forall (fun y => exists b, p y = Ok b) l1 -> p x = Raise e ->
  comp_filter p (l1 ++ x :: l2) = Raise e.
Proof.
  intros H Hx. induction H as [|y l1 [b Hy] _ IH]; simpl.
  - rewrite Hx. reflexivity.
  - rewrite Hy; simpl. rewrite IH. reflexivity.
Qed.

(** When one exception is the only one the body can raise, it is raised
    as soon as some element raises it. *)
Lemma comp_map_only {A B} (f : A -> result B) (l : list A) (e : exn) :
  Forall (fun x => (exists b, f x = Ok b) \/ f x = Raise e) l ->
  Exists (fun x => f x = Raise e) l ->
  comp_map f l = Raise e.
Proof.
  induction 1 as [|x l Hx Hl IH]; intros Hex.
  - inversion Hex.
  - simpl. destruct Hx as [[b Hb]|Hr].
    + rewrite Hb; simpl. rewrite IH; [reflexivity|].
      inversion Hex as [? ? Hh|? ? Ht]; subst; [congruence|exact Ht].
    + rewrite Hr. reflexivity.
Qed.

Lemma comp_map_inv {A B} (f : A -> result B) (l : list A) (ys : list B) :
  comp_map f l = Ok ys -> Forall2 (fun x y => f x = Ok y) l ys.
Proof.
  revert ys. induction l as [|x l IH]; simpl; intros ys H.
  - inversion H. constructor.
  - destruct (f x) as [y|] eqn:Hx; simpl in H; [|discriminate].
    destruct (comp_map f l) as [ys'|] eqn:Hl; simpl in H; [|discriminate].
    inversion H; subst. constructor; auto.
Qed.

Lemma comp_filter_inv {A} (p : A -> result bool) (l xs : list A) :
  comp_filter p l = Ok xs ->
  Forall (fun x => In x l /\ p x = Ok true) xs.
Proof.
  revert xs. induction l as [|x l IH]; simpl; intros xs H.
  - inversion H. constructor.
  - destruct (p x) as [b|] eqn:Hx; simpl in H; [|discriminate].
    destruct (comp_filter p l) as [xs'|] eqn:Hl; simpl in H; [|discriminate].
    specialize (IH _ eq_refl).
    assert (Forall (fun y => In y (x :: l) /\ p y = Ok true) xs') as IH'.
    { eapply Forall_impl; [exact IH|]. simpl. intros y [? ?]. auto. }
    inversion H; subst. destruct b; [constructor; simpl; auto|exact IH'].
Qed.

(** ** Reading a field *)

Lemma getitem_lookup (x : pyval) (k : string) (v : pyval) :
  getitem x k = Ok v <-> lookup_key k x = Some v.
Proof.
  destruct x as [| | | | |d]; simpl; try (split; discriminate).
  destruct (dict_get k d); split; intros H; inversion H; reflexivity.
Qed.

Lemma value_field_entry (k : string) (x v : pyval) :
  value_field k x = Ok v <-> entry_field k x = Some v.
Proof.
  unfold value_field, entry_field.
  destruct (lookup_key "value" x) as [u|] eqn:Hu.
  - apply getitem_lookup in Hu. rewrite Hu. simpl. apply getitem_lookup.
  - destruct (getitem x "value") as [u|] eqn:Hg; simpl.
    + apply getitem_lookup in Hg. congruence.
    + split; discriminate.
Qed.

Lemma has_field_value (k : string) (x : pyval) :
  has_field k x = true -> exists v, value_field k x = Ok v /\ entry_field k x = Some v.
Proof.
  unfold has_field. destruct (entry_field k x) as [v|] eqn:H; [|discriminate].
  intros _. exists v. split; [apply value_field_entry; exact H|reflexivity].
Qed.

Lemma has_field_ok (k : string) (x : pyval) :
  has_field k x = true -> value_field k x = Ok (field k x).
Proof.
  intros H. apply has_field_value in H as (v & Hv & He).
  unfold field. rewrite He. exact Hv.
Qed.

(** ** The extractor on a response of the known shape *)

Section ExtractorFacts.

Variable str_of : pyval -> string.

Lemma tiff_cond_shaped (e : pyval) :
  has_field "mimeType" e = true -> tiff_cond e = Ok (is_tiff e).
Proof.
  intros H. unfold tiff_cond, is_tiff.
  apply has_field_value in H as (v & Hv & He). rewrite Hv, He. reflexivity.
Qed.

Lemma images_shaped (es : list pyval) :
  forallb entry_shaped es = true ->
  comp_filter tiff_cond es = Ok (List.filter is_tiff es)
  /\ Forall (fun e => has_field "mimeType" e = true /\ has_field "reference" e = true
                      /\ has_field "profile" e = true
                      /\ has_field "originalFileName" e = true)
       (List.filter is_tiff es).
Proof.
  intros H. rewrite forallb_forall in H. split.
  - apply comp_filter_ok. apply List.Forall_forall. intros e He.
    apply tiff_cond_shaped. specialize (H e He). unfold entry_shaped in H.
    apply andb_prop in H. tauto.
  - apply List.Forall_forall. intros e He. apply filter_In in He as [He Ht].
    specialize (H e He). unfold entry_shaped in H. rewrite Ht in H. simpl in H.
    rewrite !andb_true_iff in H. tauto.
Qed.

Lemma path_of_file_shaped (es : list pyval) :
  forallb entry_shaped es = true ->
  path_of_file str_of (PList es)
  = match List.filter is_tiff es with
    | e :: _ => Ok (page_of_entry str_of e)
    | [] => Raise IndexError
    end.
Proof.
  intros H. apply images_shaped in H as [Hf Hi].
  unfold path_of_file. simpl py_iter. cbn [rbind]. rewrite Hf. cbn [rbind].
  rewrite (comp_map_ok _ (field "reference")), (comp_map_ok _ (field "mimeType")),
    (comp_map_ok _ (field "profile")), (comp_map_ok _ (field "originalFileName")).
  - destruct (List.filter is_tiff es); reflexivity.
  - eapply Forall_impl; [exact Hi|]. intros e He; simpl in He. apply has_field_ok; tauto.
  - eapply Forall_impl; [exact Hi|]. intros e He; simpl in He. apply has_field_ok; tauto.
  - eapply Forall_impl; [exact Hi|]. intros e He; simpl in He. apply has_field_ok; tauto.
  - eapply Forall_impl; [exact Hi|]. intros e He; simpl in He. apply has_field_ok; tauto.
Qed.

Lemma comp_map_map {A B C} (g : A -> B) (f : B -> result C) (l : list A) :
  comp_map f (map g l) = comp_map (fun x => f (g x)) l.
Proof. induction l as [|x l IH]; simpl; [|rewrite IH]; reflexivity. Qed.

Lemma comp_map_ext {A B} (f g : A -> result B) (l : list A) :
  Forall (fun x => f x = g x) l -> comp_map f l = comp_map g l.
Proof. induction 1 as [|x l Hx _ IH]; simpl; [|rewrite Hx, IH]; reflexivity. Qed.

Lemma resource_cond_shaped (r : pyval) :
  record_shaped r = true -> resource_cond r = Ok (tracked r).
Proof.
  unfold record_shaped, resource_cond, tracked.
  destruct (lookup_key "entityType" r) as [t|] eqn:Ht; [|discriminate].
  intros _. apply getitem_lookup in Ht. rewrite Ht. reflexivity.
Qed.

Lemma original_file_shaped (r : pyval) :
  record_shaped r = true -> tracked r = true ->
  exists l, file_list r = Some l /\ forallb entry_shaped l = true
            /\ original_file r = Ok (PList l).
Proof.
  unfold record_shaped. intros H Ht. rewrite Ht in H.
  destruct (lookup_key "entityType" r); [|discriminate]. simpl in H.
  destruct (file_list r) as [l|] eqn:Hl; [|discriminate].
  exists l. split; [reflexivity|]. split; [exact H|].
  unfold file_list in Hl. unfold original_file.
  destruct (lookup_key "properties" r) as [props|] eqn:Hp; [|discriminate].
  apply getitem_lookup in Hp. rewrite Hp. simpl.
  destruct (lookup_key "resource.originalFile" props) as [f|] eqn:Hf; [|discriminate].
  apply getitem_lookup in Hf. rewrite Hf.
  destruct f; try discriminate. congruence.
Qed.

Lemma extract_paths_shaped (records : list pyval) :
  forallb record_shaped records = true ->
  extract_paths str_of (PList records)
  = comp_map (record_outcome str_of) (List.filter tracked records).
Proof.
  intros H. rewrite forallb_forall in H.
  unfold extract_paths. simpl py_iter. cbn [rbind].
  rewrite (comp_filter_ok _ tracked).
  2:{ apply List.Forall_forall. intros r Hr. apply resource_cond_shaped. auto. }
  cbn [rbind].
  rewrite (comp_map_ok _ (fun r => PList (match file_list r with Some l => l | None => [] end))).
  2:{ apply List.Forall_forall. intros r Hr. apply filter_In in Hr as [Hr Ht].
      destruct (original_file_shaped r (H r Hr) Ht) as (l & Hl & _ & Ho).
      rewrite Hl. exact Ho. }
  cbn [rbind]. rewrite comp_map_map. apply comp_map_ext.
  apply List.Forall_forall. intros r Hr. apply filter_In in Hr as [Hr Ht].
  destruct (original_file_shaped r (H r Hr) Ht) as (l & Hl & Hs & _).
  rewrite Hl, (path_of_file_shaped l Hs).
  unfold record_outcome, page_of_record, tiff_entries. rewrite Hl.
  destruct (List.filter is_tiff l); reflexivity.
Qed.

End ExtractorFacts.

Lemma is_tiff_mime (e : pyval) :
  is_tiff e = true -> entry_field "mimeType" e = Some (PStr "image/tiff").
Proof.
  unfold is_tiff. destruct (entry_field "mimeType" e) as [m|]; [|discriminate].
  destruct m; simpl; try discriminate. intros H. apply String.eqb_eq in H. congruence.
Qed.

Lemma tiff_entries_spec (record e : pyval) :
  In e (tiff_entries record) ->
  exists l, file_list record = Some l /\ In e l /\ is_tiff e = true.
Proof.
  unfold tiff_entries. destruct (file_list record) as [l|]; [|intros []].
  intros H. apply filter_In in H. eauto.
Qed.

(** In a record of the known shape every image/tiff entry is complete. *)
Lemma tiff_entry_complete (record e : pyval) :
  record_shaped record = true -> tracked record = true ->
  In e (tiff_entries record) ->
  exists reference profile name,
    entry_field "reference" e = Some reference
    /\ entry_field "profile" e = Some profile
    /\ entry_field "mimeType" e = Some (PStr "image/tiff")
    /\ entry_field "originalFileName" e = Some name.
Proof.
  intros Hs Ht He. apply tiff_entries_spec in He as (l & Hl & He & Hi).
  unfold record_shaped in Hs. rewrite Ht, Hl in Hs.
  destruct (lookup_key "entityType" record); [|discriminate]. simpl in Hs.
  rewrite forallb_forall in Hs. specialize (Hs e He).
  unfold entry_shaped in Hs. rewrite Hi in Hs. simpl in Hs.
  rewrite !andb_true_iff in Hs. destruct Hs as (_ & (Hr & Hp) & Hn).
  apply has_field_value in Hr as (rv & _ & Hrv).
  apply has_field_value in Hp as (pv & _ & Hpv).
  apply has_field_value in Hn as (nv & _ & Hnv).
  exists rv, pv, nv. auto using is_tiff_mime.
Qed.



(** The three references of article [a1], in record order. *)
Example get_image_paths_a1 :
  get_image_paths Scenario.str_unused Scenario.loads "metadata of a1"
  = Ok [PageRef (PStr "p1.tif")
          "http://dokumentlager.nordiskamuseet.se/binaryDownload/r1?profile=original&mimeType=image/tiff";
        PageRef (PStr "p2.tif")
          "http://dokumentlager.nordiskamuseet.se/binaryDownload/r2?profile=original&mimeType=image/tiff";
        PageRef (PStr "p3.tif")
          "http://dokumentlager.nordiskamuseet.se/binaryDownload/r3?profile=original&mimeType=image/tiff"].
Proof. reflexivity. Qed.

(** ** What a successful extraction returns *)

Lemma tiff_cond_true (e : pyval) : tiff_cond e = Ok true -> is_tiff e = true.
Proof.
  unfold tiff_cond, is_tiff.
  destruct (value_field "mimeType" e) as [m|] eqn:Hm; simpl; [|discriminate].
  apply value_field_entry in Hm. rewrite Hm. congruence.
Qed.

Lemma index0_comp_map {A B} (f : A -> result B) (l : list A) (ys : list B) (y : B) :
  comp_map f l = Ok ys -> index0 ys = Ok y ->
  exists x l', l = x :: l' /\ f x = Ok y.
Proof.
  destruct l as [|x l']; simpl; intros H Hy.
  - inversion H; subst. discriminate.
  - destruct (f x) as [b|] eqn:Hx; simpl in H; [|discriminate].
    destruct (comp_map f l'); simpl in H; [|discriminate].
    inversion H; subst. simpl in Hy. inversion Hy; subst. eauto.
Qed.

Lemma path_of_file_inv (str_of : pyval -> string) (fil : pyval) (r : page_ref) :
  path_of_file str_of fil = Ok r ->
  exists entry reference profile mimetype,
    is_tiff entry = true
    /\ entry_field "originalFileName" entry = Some (filename r)
    /\ url r = file_url str_of reference profile mimetype.
Proof.
  unfold path_of_file. intros H.
  destruct (py_iter fil) as [es|]; simpl in H; [|discriminate].
  destruct (comp_filter tiff_cond es) as [images|] eqn:Hi; simpl in H; [|discriminate].
  destruct (comp_map (value_field "reference") images) as [l1|] eqn:H1; simpl in H; [|discriminate].
  destruct (index0 l1) as [reference|] eqn:E1; simpl in H; [|discriminate].
  destruct (comp_map (value_field "mimeType") images) as [l2|] eqn:H2; simpl in H; [|discriminate].
  destruct (index0 l2) as [mimetype|] eqn:E2; simpl in H; [|discriminate].
  destruct (comp_map (value_field "profile") images) as [l3|] eqn:H3; simpl in H; [|discriminate].
  destruct (index0 l3) as [profile|] eqn:E3; simpl in H; [|discriminate].
  destruct (comp_map (value_field "originalFileName") images) as [l4|] eqn:H4; simpl in H; [|discriminate].
  destruct (index0 l4) as [name|] eqn:E4; simpl in H; [|discriminate].
  inversion H; subst r; simpl.
  destruct (index0_comp_map _ _ _ _ H4 E4) as (e & rest & -> & He).
  apply comp_filter_inv in Hi. inversion Hi as [|? ? [_ Ht] _]; subst.
  exists e, reference, profile, mimetype.
  split; [apply tiff_cond_true; exact Ht|].
  split; [apply value_field_entry; exact He|reflexivity].
Qed.




(** ** The Identifier Loader *)

Lemma readlines_join (s : string) : join_lines (readlines s) = s.
Proof.
  induction s as [|c s IH]; simpl; [reflexivity|].
  destruct (Ascii.eqb c ch_lf); simpl.
  - rewrite IH. reflexivity.
  - destruct (readlines s) as [|l ls]; simpl in *; rewrite <- IH; reflexivity.
Qed.

Lemma readlines_one_line (s : string) :
  Forall (fun l => one_line l = true) (readlines s).
Proof.
  induction s as [|c s IH]; simpl; [constructor|].
  destruct (Ascii.eqb c ch_lf) eqn:Hc; [constructor; [reflexivity|exact IH]|].
  destruct (readlines s) as [|l ls]; [repeat constructor|].
  inversion IH as [|? ? Hl Hls]; subst. constructor; [|exact Hls].
  simpl. rewrite Hc. destruct l; [discriminate|exact Hl].
Qed.

Lemma lstrip_first (s : string) (c : ascii) (t : string) :
  lstrip s = String c t -> is_space c = false.
Proof.
  induction s as [|a s IH]; simpl; [discriminate|].
  destruct (is_space a) eqn:Ha; [exact IH|]. intros H. inversion H; subst. exact Ha.
Qed.

Lemma rstrip_first (s : string) (c : ascii) (t : string) :
  rstrip s = String c t -> exists t', s = String c t'.
Proof.
  destruct s as [|a s]; simpl; [discriminate|].
  destruct (rstrip s); [destruct (is_space a)|]; intros H; inversion H; subst; eauto.
Qed.

Lemma rstrip_last (s : string) (c : ascii) :
  last_char (rstrip s) = Some c -> is_space c = false.
Proof.
  induction s as [|a s IH]; simpl; [discriminate|].
  destruct (rstrip s) as [|b r] eqn:Hr.
  - destruct (is_space a) eqn:Ha; simpl; [discriminate|]. intros H. inversion H; subst. exact Ha.
  - simpl. exact IH.
Qed.

Lemma strip_stripped (s : string) : stripped (strip s) = true.
Proof.
  unfold stripped, strip. apply andb_true_intro. split.
  - destruct (rstrip (lstrip s)) as [|c t] eqn:H; [reflexivity|].
    apply rstrip_first in H as [t' H]. apply lstrip_first in H. rewrite H. reflexivity.
  - destruct (last_char (rstrip (lstrip s))) as [c|] eqn:H; [|reflexivity].
    apply rstrip_last in H. rewrite H. reflexivity.
Qed.

(** C5, amended.  On a readable input file the Identifier Loader returns
    one entry per line of the text, in file order, the i-th entry being
    the i-th line with the whitespace at both its ends removed, so that
    repeated lines give repeated entries; the lines are the pieces of
    the text cut after each line feed.  An entry may be empty. *)
Theorem C5_one_stripped_entry_per_line (filename content : string) (w : world) :
  fs w !! filename = Some (File content) ->
  exists ids,
    file_to_list filename w = (Ok ids, w)
    /\ join_lines (readlines (universal_newlines content)) = universal_newlines content
    /\ Forall (fun l => one_line l = true) (readlines (universal_newlines content))
    /\ length ids = length (readlines (universal_newlines content))
    /\ (forall (i : nat) (line : string),
          readlines (universal_newlines content) !! i = Some line ->
          ids !! i = Some (strip line))
    /\ Forall (fun id => stripped id = true) ids.
Proof.
  intros Hf. exists (map strip (readlines (universal_newlines content))).
  split.
  { unfold file_to_list, open_read, mbind, io_bind, bind, mret, io_ret, ret.
    rewrite Hf. reflexivity. }
  split; [apply readlines_join|]. split; [apply readlines_one_line|].
  split; [apply length_map|]. split.
  - intros i line Hi.
    change (map strip ?l) with (strip <$> l). rewrite list_lookup_fmap, Hi. reflexivity.
  - apply List.Forall_forall. intros id Hid. apply in_map_iff in Hid as (l & <- & _).
    apply strip_stripped.
Qed.

Lemma C5_witness :
  (World {[ "ids.txt" := File Scenario.ids_blank_txt ]} []).(fs) !! "ids.txt"
  = Some (File Scenario.ids_blank_txt)
  /\ exists ids,
       file_to_list "ids.txt" (World {[ "ids.txt" := File Scenario.ids_blank_txt ]} [])
       = (Ok ids, World {[ "ids.txt" := File Scenario.ids_blank_txt ]} [])
       /\ join_lines (readlines (universal_newlines Scenario.ids_blank_txt))
          = universal_newlines Scenario.ids_blank_txt
       /\ Forall (fun l => one_line l = true)
            (readlines (universal_newlines Scenario.ids_blank_txt))
       /\ length ids = length (readlines (universal_newlines Scenario.ids_blank_txt))
       /\ (forall (i : nat) (line : string),
             readlines (universal_newlines Scenario.ids_blank_txt) !! i = Some line ->
             ids !! i = Some (strip line))
       /\ Forall (fun id => stripped id = true) ids.
Proof.
  split; [reflexivity|].
  apply (C5_one_stripped_entry_per_line "ids.txt" Scenario.ids_blank_txt
           (World {[ "ids.txt" := File Scenario.ids_blank_txt ]} [])).
  reflexivity.
Defined.

(** C5 as stated fails: a file with the three lines [a1], an empty line
    and [  a2 ] is loaded as the three entries [a1], the empty string
    and [a2]; the second entry is not a non-empty string. *)
Lemma C5_blank_line_gives_empty_entry :
  file_to_list "ids.txt" (World {[ "ids.txt" := File Scenario.ids_blank_txt ]} [])
  = (Ok ["a1"; ""; "a2"], World {[ "ids.txt" := File Scenario.ids_blank_txt ]} [])
  /\ ~ Forall (fun id : string => id <> "") ["a1"; ""; "a2"].
Proof.
  split; [reflexivity|].
  intros H. inversion H as [|? ? _ H']; subst. inversion H' as [|? ? Hne _]; subst.
  apply Hne. reflexivity.
Qed.

(** ** The monad *)

Ltac io_unfold :=
  unfold mbind, io_bind, bind, mret, io_ret, ret, lift, raise, emit, print in *.

Lemma bind_ok {A B} (c : io A) (k : A -> io B) (w w' : world) (a : A) :
  c w = (Ok a, w') -> (c ≫= k) w = k a w'.
Proof. intros H. io_unfold. rewrite H. reflexivity. Qed.

Lemma for_each_cons {A} (x : A) (l : list A) (body : A -> io unit) (w : world) :
  for_each (x :: l) body w
  = match body x w with
    | (Ok _, w') => for_each l body w'
    | (Raise e, w') => (Raise e, w')
    end.
Proof. reflexivity. Qed.

Lemma for_each_app {A} (l1 l2 : list A) (body : A -> io unit) (w : world) :
  for_each (l1 ++ l2) body w
  = match for_each l1 body w with
    | (Ok _, w') => for_each l2 body w'
    | (Raise e, w') => (Raise e, w')
    end.
Proof.
  revert w. induction l1 as [|x l1 IH]; intros w; [reflexivity|].
  simpl app. rewrite !for_each_cons.
  destruct (body x w) as [[[]|e] w']; [apply IH|reflexivity].
Qed.

(** ** The Driver *)

Section DriverFacts.

Variable str_of : pyval -> string.
Variable json_loads : string -> result pyval.
Variable http_get : string -> option (string * string) -> result string.
Variable exec : list string -> gmap string node -> exec_result.
Variable which : string -> option string.
Variable strftime : string -> string.
Variable username password : string.

Local Abbreviation download_article :=
  (download_files_of_article str_of json_loads http_get username password).
Local Abbreviation assemble := (create_djvu exec).
Local Abbreviation process :=
  (process_article str_of json_loads http_get exec username password).

Lemma download_fetch_raises (internal_id : string) (e : exn) (w : world) :
  http_get (generate_url internal_id) (Some (username, password)) = Raise e ->
  download_article internal_id w = (Raise e, fetched username password internal_id w).
Proof.
  intros H. unfold download_files_of_article, requests_get, fetched. io_unfold.
  simpl. rewrite H. rewrite <- app_assoc. reflexivity.
Qed.

Lemma download_extract_raises (internal_id body : string) (e : exn) (w : world) :
  http_get (generate_url internal_id) (Some (username, password)) = Ok body ->
  get_image_paths str_of json_loads body = Raise e ->
  download_article internal_id w = (Raise e, fetched username password internal_id w).
Proof.
  intros H He. unfold download_files_of_article, requests_get, fetched. io_unfold.
  simpl. rewrite H, He. rewrite <- app_assoc. reflexivity.
Qed.

Lemma process_article_raise (error_log int_id : string) (e : exn) (w w' : world) :
  download_article int_id w = (Raise e, w') -> e <> IndexError ->
  process error_log int_id w = (Raise e, w').
Proof.
  intros H Hne. unfold process_article, try_except_IndexError. io_unfold.
  rewrite H. destruct e; try reflexivity. congruence.
Qed.

Lemma process_article_index (error_log int_id : string) (w w' : world) :
  download_article int_id w = (Raise IndexError, w') ->
  process error_log int_id w = log_weird_article int_id error_log w'.
Proof.
  intros H. unfold process_article, try_except_IndexError. io_unfold.
  rewrite H. destruct (log_weird_article int_id error_log w') as [[[]|e] w'']; reflexivity.
Qed.

Lemma process_article_ok (error_log int_id : string) (w w' : world) :
  download_article int_id w = (Ok tt, w') ->
  process error_log int_id w = assemble int_id w'.
Proof.
  intros H. unfold process_article, try_except_IndexError. io_unfold.
  rewrite H. reflexivity.
Qed.

Lemma log_weird_article_ok (int_id error_log : string) (w : world) :
  appendable (fs w) error_log = true ->
  log_weird_article int_id error_log w
  = (Ok tt,
     World (<[error_log := File (text_of (fs w) error_log
                                   ++ int_id ++ String ch_lf EmptyString)]> (fs w))
           (trace w ++ [EAppend error_log (int_id ++ String ch_lf EmptyString)])).
Proof.
  unfold appendable, text_of, log_weird_article, open_append. io_unfold. simpl.
  destruct (fs w !! error_log) as [[c|]|]; try discriminate; [reflexivity|].
  destruct (parent_check (fs w) error_log); [reflexivity|discriminate].
Qed.

Lemma extract_zero_tiff (response : pyval) :
  known_shape response = true ->
  existsb (fun r => negb (has_tiff r)) (tracked_records response) = true ->
  extract_paths str_of response = Raise IndexError.
Proof.
  intros Hs Hz. destruct response as [| | | |records|]; try discriminate.
  simpl in Hs. unfold tracked_records in Hz. simpl in Hz.
  rewrite extract_paths_shaped by exact Hs.
  apply comp_map_only.
  - apply List.Forall_forall. intros r _. unfold record_outcome.
    destruct (page_of_record str_of r); eauto.
  - apply existsb_exists in Hz as (r & Hr & Hz). apply List.Exists_exists.
    exists r. split; [exact Hr|]. unfold record_outcome, page_of_record.
    unfold has_tiff in Hz. destruct (tiff_entries r); [reflexivity|discriminate].
Qed.

(** C1.  When the metadata of an identifier, of the known shape,
    contains a tracked record with no image/tiff entry, extraction
    raises the indexing error; the Driver appends the identifier and a
    line feed to the error log and goes on with the next identifier
    from a world in which nothing else has changed: besides the
    announcement and the metadata request the trace holds only the
    append, so no directory, image or document was made for this
    identifier. *)
Theorem C1_zero_tiff_logged_and_skipped
  (int_id body : string) (response : pyval) (rest : list string) (w : world) :
  http_get (generate_url int_id) (Some (username, password)) = Ok body ->
  json_loads body = Ok response ->
  known_shape response = true ->
  existsb (fun r => negb (has_tiff r)) (tracked_records response) = true ->
  appendable (fs w) (start_error_log strftime) = true ->
  get_image_paths str_of json_loads body = Raise IndexError
  /\ for_each (int_id :: rest) (process (start_error_log strftime)) w
     = for_each rest (process (start_error_log strftime))
         (World
            (<[start_error_log strftime :=
                 File (text_of (fs w) (start_error_log strftime)
                         ++ int_id ++ String ch_lf EmptyString)]> (fs w))
            (trace w
               ++ [EPrint ("Downloading files of " ++ int_id);
                   EGet (generate_url int_id) (Some (username, password));
                   EAppend (start_error_log strftime)
                     (int_id ++ String ch_lf EmptyString)])).
Proof.
  intros Hget Hload Hs Hz Hlog.
  assert (get_image_paths str_of json_loads body = Raise IndexError) as Hx.
  { unfold get_image_paths. rewrite Hload. simpl. apply extract_zero_tiff; assumption. }
  split; [exact Hx|].
  rewrite for_each_cons.
  rewrite (process_article_index _ _ _ _ (download_extract_raises _ _ _ w Hget Hx)).
  rewrite log_weird_article_ok by exact Hlog.
  unfold fetched. simpl. rewrite <- app_assoc. reflexivity.
Qed.

(** C2.  After the identifiers [pre] have been processed, an exception
    other than the indexing error raised by the fetch, extract and
    download of [int_id] ends the loop at once with that exception,
    and so does any exception raised by the assembly of [int_id]: the
    result does not depend on the identifiers [rest] and the world is
    the one in which the exception was raised.  An indexing error
    raised by the fetch, extract and download as a whole is answered
    by logging the identifier and going on; this holds as well when
    it is the metadata request itself that raises it. *)
Theorem C2_only_index_error_recovered
  (error_log : string) (pre : list string) (int_id : string) (rest : list string)
  (w w1 : world) :
  for_each pre (process error_log) w = (Ok tt, w1) ->
  (forall e w2,
      download_article int_id w1 = (Raise e, w2) -> e <> IndexError ->
      for_each (pre ++ int_id :: rest) (process error_log) w = (Raise e, w2))
  /\ (forall e w2 w3,
        download_article int_id w1 = (Ok tt, w2) ->
        assemble int_id w2 = (Raise e, w3) ->
        for_each (pre ++ int_id :: rest) (process error_log) w = (Raise e, w3))
  /\ (forall w2,
        download_article int_id w1 = (Raise IndexError, w2) ->
        for_each (pre ++ int_id :: rest) (process error_log) w
        = (log_weird_article int_id error_log;;
           for_each rest (process error_log)) w2)
  /\ (http_get (generate_url int_id) (Some (username, password)) = Raise IndexError ->
      for_each (pre ++ int_id :: rest) (process error_log) w
      = (log_weird_article int_id error_log;;
         for_each rest (process error_log)) (fetched username password int_id w1)).
Proof.
  intros Hpre.
  assert (forall w2, download_article int_id w1 = (Raise IndexError, w2) ->
          for_each (pre ++ int_id :: rest) (process error_log) w
          = (log_weird_article int_id error_log;;
             for_each rest (process error_log)) w2) as Hidx.
  { intros w2 H. rewrite for_each_app, Hpre, for_each_cons.
    rewrite (process_article_index _ _ _ _ H). io_unfold.
    destruct (log_weird_article int_id error_log w2) as [[[]|e] w3]; reflexivity. }
  split; [|split; [|split]].
  - intros e w2 H Hne. rewrite for_each_app, Hpre, for_each_cons.
    rewrite (process_article_raise _ _ _ _ _ H Hne). reflexivity.
  - intros e w2 w3 H Ha. rewrite for_each_app, Hpre, for_each_cons.
    rewrite (process_article_ok _ _ _ _ H), Ha. reflexivity.
  - exact Hidx.
  - intros H. apply Hidx. apply download_fetch_raises. exact H.
Qed.

(** C8.  When [djvm] or [cjb2] is not found on the search path the
    script raises at once, with the message of the source, in the
    world it was started in: nothing was read, requested, written or
    run. *)
Theorem C8_missing_tool_aborts_at_startup (list_option : option string) (w : world) :
  which "djvm" = None \/ which "cjb2" = None ->
  script str_of json_loads http_get exec which strftime username password list_option w
  = (Raise (Exception "Djvu utils djvm and cjb2 not found."), w).
Proof.
  intros H. unfold script, can_djvu.
  destruct H as [H|H]; rewrite H; simpl.
  - reflexivity.
  - rewrite andb_false_r. reflexivity.
Qed.

End DriverFacts.

(** ** Responses with a key missing *)

Lemma existsb_first {A} (p : A -> bool) (l : list A) :
  existsb p l = true ->
  exists l1 x l2, l = l1 ++ x :: l2 /\ Forall (fun y => p y = false) l1 /\ p x = true.
Proof.
  induction l as [|a l IH]; simpl; [discriminate|].
  destruct (p a) eqn:Ha; simpl.
  - intros _. exists [], a, l. auto.
  - intros H. destruct (IH H) as (l1 & x & l2 & -> & Hl1 & Hx).
    exists (a :: l1), x, l2. auto.
Qed.

Lemma getitem_missing (x : pyval) (k : string) :
  is_dict x = true -> lookup_key k x = None -> getitem x k = Raise (KeyError k).
Proof.
  destruct x as [| | | | |d]; try discriminate. simpl. intros _ H. rewrite H. reflexivity.
Qed.

Lemma resource_cond_keyed (r : pyval) :
  has_key "entityType" r = true -> resource_cond r = Ok (tracked r).
Proof.
  unfold has_key, resource_cond, tracked.
  destruct (lookup_key "entityType" r) as [t|] eqn:Ht; [|discriminate].
  intros _. apply getitem_lookup in Ht. rewrite Ht. reflexivity.
Qed.

Lemma tracked_dict (r : pyval) : tracked r = true -> is_dict r = true.
Proof.
  unfold tracked. destruct r; try discriminate. reflexivity.
Qed.

Lemma original_file_value (r v : pyval) :
  file_value r = Some v -> original_file r = Ok v.
Proof.
  unfold file_value, original_file.
  destruct (lookup_key "properties" r) as [props|] eqn:Hp; [|discriminate].
  apply getitem_lookup in Hp. rewrite Hp. simpl. apply getitem_lookup.
Qed.

Lemma original_file_missing (r : pyval) :
  tracked r = true -> properties_typed r = true -> file_value r = None ->
  exists k, original_file r = Raise (KeyError k).
Proof.
  unfold properties_typed, file_value, original_file. intros Ht Hp Hv.
  destruct (lookup_key "properties" r) as [props|] eqn:Hl.
  - apply getitem_lookup in Hl. rewrite Hl. simpl.
    exists "resource.originalFile". apply getitem_missing; assumption.
  - exists "properties". rewrite getitem_missing; auto using tracked_dict.
Qed.

Lemma tiff_cond_missing (e : pyval) :
  entry_typed e = true -> has_field "mimeType" e = false ->
  exists k, tiff_cond e = Raise (KeyError k).
Proof.
  unfold entry_typed, has_field, entry_field, tiff_cond, value_field.
  intros Ht Hf. apply andb_prop in Ht as [Hd Hv].
  destruct (lookup_key "value" e) as [v|] eqn:Hl.
  - apply getitem_lookup in Hl. rewrite Hl. simpl.
    destruct (lookup_key "mimeType" v) eqn:Hm; [discriminate|].
    exists "mimeType". rewrite getitem_missing; auto.
  - exists "value". rewrite getitem_missing; auto.
Qed.

Lemma file_list_value (r : pyval) (l : list pyval) :
  file_list r = Some l -> file_value r = Some (PList l).
Proof.
  unfold file_list, file_value.
  destruct (lookup_key "properties" r) as [props|]; [|discriminate].
  destruct (lookup_key "resource.originalFile" props) as [[| | | |l'|]|]; try discriminate.
  congruence.
Qed.

Section MissingKeys.

Variable str_of : pyval -> string.

Lemma extract_lacks_entity_kind (records : list pyval) :
  lacks_entity_kind records = true ->
  extract_paths str_of (PList records) = Raise (KeyError "entityType").
Proof.
  unfold lacks_entity_kind. intros H. apply andb_prop in H as [Hd Hx].
  rewrite forallb_forall in Hd.
  apply existsb_first in Hx as (l1 & x & l2 & -> & Hl1 & Hx).
  unfold extract_paths. simpl py_iter. cbn [rbind].
  rewrite (comp_filter_raise _ l1 l2 x (KeyError "entityType")); [reflexivity| |].
  - eapply Forall_impl; [exact Hl1|]. simpl. intros r Hr.
    apply negb_false_iff in Hr. rewrite (resource_cond_keyed r Hr). eauto.
  - unfold resource_cond. rewrite getitem_missing; [reflexivity| |].
    + apply Hd. apply in_or_app. right. left. reflexivity.
    + apply negb_true_iff in Hx. unfold has_key in Hx.
      destruct (lookup_key "entityType" x); [discriminate|reflexivity].
Qed.

Lemma resources_keyed (records : list pyval) :
  forallb (has_key "entityType") records = true ->
  comp_filter resource_cond records = Ok (List.filter tracked records).
Proof.
  intros H. rewrite forallb_forall in H. apply comp_filter_ok.
  apply List.Forall_forall. intros r Hr. apply resource_cond_keyed. auto.
Qed.

Lemma extract_lacks_file_list (records : list pyval) :
  lacks_file_list records = true ->
  exists k, extract_paths str_of (PList records) = Raise (KeyError k).
Proof.
  unfold lacks_file_list. intros H.
  apply andb_prop in H as [H Hx]. apply andb_prop in H as [Hk Hp].
  unfold extract_paths. simpl py_iter. cbn [rbind].
  rewrite (resources_keyed records Hk). cbn [rbind].
  rewrite forallb_forall in Hp.
  apply existsb_first in Hx as (l1 & x & l2 & Hsplit & Hl1 & Hx).
  assert (In x (List.filter tracked records)) as Hin.
  { rewrite Hsplit. apply in_or_app. right. left. reflexivity. }
  destruct (original_file_missing x) as [k Hm].
  - apply filter_In in Hin. tauto.
  - apply Hp. exact Hin.
  - apply negb_true_iff, bool_decide_eq_false in Hx.
    destruct (file_value x); [exfalso; apply Hx; eauto|reflexivity].
  - exists k. rewrite Hsplit.
    rewrite (comp_map_raise _ l1 l2 x (KeyError k)); [reflexivity| |exact Hm].
    eapply Forall_impl; [exact Hl1|]. simpl. intros r Hr.
    apply negb_false_iff, bool_decide_eq_true in Hr. destruct Hr as [v Hv].
    exists v. apply original_file_value. exact Hv.
Qed.

Lemma path_of_file_lacks_entry_key (r : pyval) :
  record_lacks_entry_key r = true ->
  exists l k, file_value r = Some (PList l)
              /\ path_of_file str_of (PList l) = Raise (KeyError k).
Proof.
  unfold record_lacks_entry_key. destruct (file_list r) as [l|] eqn:Hl; [|discriminate].
  intros H. apply andb_prop in H as [Ht Hx]. rewrite forallb_forall in Ht.
  apply existsb_first in Hx as (l1 & x & l2 & -> & Hl1 & Hx).
  destruct (tiff_cond_missing x) as [k Hk].
  - apply Ht. apply in_or_app. right. left. reflexivity.
  - apply negb_true_iff. exact Hx.
  - exists (l1 ++ x :: l2), k. split; [apply file_list_value; exact Hl|].
    unfold path_of_file. simpl py_iter. cbn [rbind].
    rewrite (comp_filter_raise _ l1 l2 x (KeyError k)); [reflexivity| |exact Hk].
    eapply Forall_impl; [exact Hl1|]. simpl. intros e He.
    apply negb_false_iff in He. rewrite (tiff_cond_shaped e He). eauto.
Qed.

Lemma path_of_file_fine (r : pyval) :
  record_fine r = true ->
  exists l p, file_value r = Some (PList l) /\ path_of_file str_of (PList l) = Ok p.
Proof.
  unfold record_fine, has_tiff, tiff_entries.
  destruct (file_list r) as [l|] eqn:Hl; [|discriminate].
  intros H. apply andb_prop in H as [Hs Ht].
  exists l. rewrite (path_of_file_shaped str_of l Hs).
  destruct (List.filter is_tiff l) as [|e rest]; [discriminate|].
  eexists. split; [apply file_list_value; exact Hl|reflexivity].
Qed.

Lemma comp_map_entry_key_first (ts : list pyval) :
  entry_key_first ts = true ->
  exists k,
    comp_map (fun r => path_of_file str_of
                         (match file_value r with Some v => v | None => PNone end)) ts
    = Raise (KeyError k).
Proof.
  induction ts as [|r ts IH]; simpl; [discriminate|].
  destruct (record_fine r) eqn:Hf.
  - intros H. destruct (IH H) as [k Hk]. exists k.
    destruct (path_of_file_fine r Hf) as (l & p & Hv & Hp).
    rewrite Hv, Hp. simpl. rewrite Hk. reflexivity.
  - intros H. destruct (path_of_file_lacks_entry_key r H) as (l & k & Hv & Hp).
    exists k. rewrite Hv, Hp. reflexivity.
Qed.

Lemma extract_lacks_entry_key (records : list pyval) :
  lacks_entry_key records = true ->
  exists k, extract_paths str_of (PList records) = Raise (KeyError k).
Proof.
  unfold lacks_entry_key. intros H.
  apply andb_prop in H as [H Hx]. apply andb_prop in H as [Hk Hv].
  destruct (comp_map_entry_key_first _ Hx) as [k Hc]. exists k.
  unfold extract_paths. simpl py_iter. cbn [rbind].
  rewrite (resources_keyed records Hk). cbn [rbind].
  rewrite (comp_map_ok _ (fun r => match file_value r with Some v => v | None => PNone end)).
  - cbn [rbind]. rewrite comp_map_map. exact Hc.
  - rewrite forallb_forall in Hv. apply List.Forall_forall. intros r Hr.
    specialize (Hv r Hr). apply bool_decide_eq_true in Hv as [v Hv].
    rewrite Hv. apply original_file_value. exact Hv.
Qed.

End MissingKeys.

Section MissingKeyRun.

Variable str_of : pyval -> string.
Variable json_loads : string -> result pyval.
Variable http_get : string -> option (string * string) -> result string.
Variable exec : list string -> gmap string node -> exec_result.
Variable username password : string.

Local Abbreviation process :=
  (process_article str_of json_loads http_get exec username password).

(** C10, amended.  In a response made of dicts and lists as expected,
    a record without the entity-kind field, a tracked record without
    the properties map or without the nested original-file property,
    or a tracked record with a file entry without [value] or
    [mimeType] whose predecessors among the tracked records all have
    a file list in order with an image/tiff entry, makes extraction
    raise a key-lookup error.  The Driver does not catch it: the run
    ends at that article with the file system as it was, so nothing
    is logged, and no later identifier is processed. *)
Theorem C10_missing_key_ends_run
  (error_log int_id body : string) (records : list pyval) (rest : list string)
  (w : world) :
  http_get (generate_url int_id) (Some (username, password)) = Ok body ->
  json_loads body = Ok (PList records) ->
  lacks_entity_kind records || lacks_file_list records || lacks_entry_key records = true ->
  exists k,
    get_image_paths str_of json_loads body = Raise (KeyError k)
    /\ for_each (int_id :: rest) (process error_log) w
       = (Raise (KeyError k), fetched username password int_id w)
    /\ fs (fetched username password int_id w) = fs w.
Proof.
  intros Hget Hload H.
  assert (exists k, extract_paths str_of (PList records) = Raise (KeyError k)) as [k Hk].
  { apply orb_prop in H as [H|H]; [apply orb_prop in H as [H|H]|].
    - eexists. apply extract_lacks_entity_kind. exact H.
    - apply extract_lacks_file_list. exact H.
    - apply extract_lacks_entry_key. exact H. }
  assert (get_image_paths str_of json_loads body = Raise (KeyError k)) as Hx.
  { unfold get_image_paths. rewrite Hload. exact Hk. }
  exists k. split; [exact Hx|]. split; [|reflexivity].
  rewrite for_each_cons.
  pose proof (download_extract_raises str_of json_loads http_get username password
                int_id body _ w Hget Hx) as Hd.
  rewrite (process_article_raise str_of json_loads http_get exec username password
             error_log int_id _ _ _ Hd); [reflexivity|discriminate].
Qed.

End MissingKeyRun.

(** ** The theorems on concrete runs *)

Lemma C1_witness :
  Scenario.http (generate_url "a2") (Some (Scenario.username, Scenario.password))
  = Ok "metadata of a2"
  /\ Scenario.loads "metadata of a2" = Ok Scenario.meta_a2
  /\ known_shape Scenario.meta_a2 = true
  /\ existsb (fun r => negb (has_tiff r)) (tracked_records Scenario.meta_a2) = true
  /\ appendable (fs Scenario.start) (start_error_log Scenario.clock) = true
  /\ get_image_paths Scenario.str_unused Scenario.loads "metadata of a2" = Raise IndexError
  /\ for_each ["a2"; "a1"] Scenario.process Scenario.start
     = for_each ["a1"] Scenario.process
         (World
            (<[ "20240101-120000.log" := File ("a2" ++ Scenario.nl) ]> (fs Scenario.start))
            [EPrint "Downloading files of a2";
             EGet (generate_url "a2") (Some (Scenario.username, Scenario.password));
             EAppend "20240101-120000.log" ("a2" ++ Scenario.nl)]).
Proof.
  repeat (split; [reflexivity|]).
  apply (C1_zero_tiff_logged_and_skipped Scenario.str_unused Scenario.loads Scenario.http
           Scenario.tools Scenario.clock Scenario.username Scenario.password
           "a2" "metadata of a2" Scenario.meta_a2 ["a1"] Scenario.start);
    reflexivity.
Defined.

Lemma C2_witness :
  for_each ["a2"] Scenario.process Scenario.start
  = (Ok tt, snd (for_each ["a2"] Scenario.process Scenario.start))
  /\ Scenario.download "zz" (snd (for_each ["a2"] Scenario.process Scenario.start))
     = (Raise RequestException,
        fetched Scenario.username Scenario.password "zz"
          (snd (for_each ["a2"] Scenario.process Scenario.start)))
  /\ RequestException <> IndexError
  /\ for_each (["a2"] ++ "zz" :: ["a1"]) Scenario.process Scenario.start
     = (Raise RequestException,
        fetched Scenario.username Scenario.password "zz"
          (snd (for_each ["a2"] Scenario.process Scenario.start))).
Proof.
  split; [reflexivity|]. split; [reflexivity|]. split; [discriminate|].
  apply (proj1 (C2_only_index_error_recovered Scenario.str_unused Scenario.loads
                  Scenario.http Scenario.tools Scenario.username Scenario.password
                  Scenario.error_log ["a2"] "zz" ["a1"] Scenario.start
                  (snd (for_each ["a2"] Scenario.process Scenario.start)) eq_refl));
    [reflexivity|discriminate].
Defined.

Lemma C8_witness :
  (Scenario.which_no_cjb2 "djvm" = None \/ Scenario.which_no_cjb2 "cjb2" = None)
  /\ script Scenario.str_unused Scenario.loads Scenario.http Scenario.tools
       Scenario.which_no_cjb2 Scenario.clock Scenario.username Scenario.password
       (Some "ids.txt") Scenario.start
     = (Raise (Exception "Djvu utils djvm and cjb2 not found."), Scenario.start).
Proof.
  split; [right; reflexivity|].
  apply (C8_missing_tool_aborts_at_startup Scenario.str_unused Scenario.loads Scenario.http
           Scenario.tools Scenario.which_no_cjb2 Scenario.clock Scenario.username
           Scenario.password (Some "ids.txt") Scenario.start).
  right. reflexivity.
Defined.

Lemma C10_witness :
  Scenario.http (generate_url "a4") (Some (Scenario.username, Scenario.password))
  = Ok "metadata of a4"
  /\ Scenario.loads "metadata of a4" = Ok Scenario.meta_a4
  /\ lacks_entity_kind (records_of Scenario.meta_a4)
     || lacks_file_list (records_of Scenario.meta_a4)
     || lacks_entry_key (records_of Scenario.meta_a4) = true
  /\ exists k,
       get_image_paths Scenario.str_unused Scenario.loads "metadata of a4"
       = Raise (KeyError k)
       /\ for_each ["a4"; "a1"] Scenario.process Scenario.start
          = (Raise (KeyError k),
             fetched Scenario.username Scenario.password "a4" Scenario.start)
       /\ fs (fetched Scenario.username Scenario.password "a4" Scenario.start)
          = fs Scenario.start.
Proof.
  repeat (split; [reflexivity|]).
  apply (C10_missing_key_ends_run Scenario.str_unused Scenario.loads Scenario.http
           Scenario.tools Scenario.username Scenario.password
           Scenario.error_log "a4" "metadata of a4" (records_of Scenario.meta_a4) ["a1"]
           Scenario.start);
    reflexivity.
Defined.

(** C10 as stated fails.  In the response
    [[{"entityType": "Resource", "properties": {"resource.originalFile": []}},
      {"entityType": "Resource", "properties": {"resource.originalFile": [{}]}}]]
    the file entry of the second record has neither [value] nor
    [mimeType], yet extraction raises the indexing error, on the first
    record; the Driver logs the identifier and goes on to the next
    one. *)
Lemma C10_index_error_comes_first :
  record_lacks_entry_key
    (PDict [("entityType", PStr "Resource");
            ("properties", PDict [("resource.originalFile", PList [PDict []])])]) = true
  /\ get_image_paths Scenario.str_unused Scenario.loads "metadata of a3" = Raise IndexError
  /\ (forall k,
        get_image_paths Scenario.str_unused Scenario.loads "metadata of a3"
        <> Raise (KeyError k))
  /\ for_each ["a3"; "a2"] Scenario.process Scenario.start
     = (Ok tt,
        World (<[ "20240101-120000.log" := File ("a3" ++ Scenario.nl ++ "a2" ++ Scenario.nl) ]>
                 (fs Scenario.start))
          [EPrint "Downloading files of a3";
           EGet (generate_url "a3") (Some (Scenario.username, Scenario.password));
           EAppend "20240101-120000.log" ("a3" ++ Scenario.nl);
           EPrint "Downloading files of a2";
           EGet (generate_url "a2") (Some (Scenario.username, Scenario.password));
           EAppend "20240101-120000.log" ("a2" ++ Scenario.nl)]).
Proof.
  split; [reflexivity|]. split; [reflexivity|]. split; [discriminate|]. reflexivity.
Qed.

(** A record of another kind is read for its entity kind only: without
    a properties map it raises nothing. *)
Example untracked_record_without_properties :
  get_image_paths Scenario.str_unused Scenario.loads "metadata of a5"
  = Ok [PageRef (PStr "p1.tif")
          "http://dokumentlager.nordiskamuseet.se/binaryDownload/r1?profile=original&mimeType=image/tiff"].
Proof. reflexivity. Qed.

(** ** Strings and paths *)

Lemma ascii_compare_refl (a : ascii) : Ascii.compare a a = Eq.
Proof. unfold Ascii.compare. apply N.compare_refl. Qed.

Lemma ascii_compare_trans (a b c : ascii) (o : comparison) :
  Ascii.compare a b = o -> Ascii.compare b c = o -> Ascii.compare a c = o.
Proof.
  unfold Ascii.compare. destruct o; intros H1 H2.
  - apply N.compare_eq_iff in H1, H2. apply N.compare_eq_iff. congruence.
  - apply N.compare_lt_iff in H1, H2. apply N.compare_lt_iff.
    exact (N.lt_trans _ _ _ H1 H2).
  - apply N.compare_gt_iff in H1, H2. apply N.compare_gt_iff.
    exact (N.lt_trans _ _ _ H2 H1).
Qed.

Lemma string_compare_refl (s : string) : String.compare s s = Eq.
Proof.
  induction s as [|a s IH]; simpl; [reflexivity|].
  rewrite ascii_compare_refl. exact IH.
Qed.

Lemma string_compare_trans_lt (s1 s2 s3 : string) :
  String.compare s1 s2 = Lt -> String.compare s2 s3 = Lt -> String.compare s1 s3 = Lt.
Proof.
  revert s2 s3. induction s1 as [|a s1 IH]; intros [|b s2] [|c s3]; simpl;
    try discriminate; try reflexivity.
  destruct (Ascii.compare a b) eqn:Hab; try discriminate;
    destruct (Ascii.compare b c) eqn:Hbc; try discriminate; intros H1 H2.
  - rewrite (ascii_compare_trans _ _ _ _ Hab Hbc). eauto.
  - apply Ascii.compare_eq_iff in Hab. subst. rewrite Hbc. reflexivity.
  - apply Ascii.compare_eq_iff in Hbc. subst. rewrite Hab. reflexivity.
  - rewrite (ascii_compare_trans _ _ _ _ Hab Hbc). reflexivity.
Qed.

#[global] Instance str_le_total : Total str_le.
Proof. intros s1 s2. apply String.leb_total. Qed.

#[global] Instance str_le_antisym : AntiSymm (=) str_le.
Proof. intros s1 s2. apply String.leb_antisym. Qed.

#[global] Instance str_le_trans : Transitive str_le.
Proof.
  intros s1 s2 s3. unfold str_le, String.leb.
  destruct (String.compare s1 s2) eqn:H12; try discriminate;
    destruct (String.compare s2 s3) eqn:H23; try discriminate; intros _ _.
  - apply String.compare_eq_iff in H12, H23. subst.
    rewrite string_compare_refl. reflexivity.
  - apply String.compare_eq_iff in H12. subst. rewrite H23. reflexivity.
  - apply String.compare_eq_iff in H23. subst. rewrite H12. reflexivity.
  - rewrite (string_compare_trans_lt _ _ _ H12 H23). reflexivity.
Qed.

Lemma has_slash_app (a b : string) :
  has_slash (a ++ b) = has_slash a || has_slash b.
Proof.
  induction a as [|c a IH]; simpl; [reflexivity|].
  rewrite IH. apply orb_assoc.
Qed.

Lemma ends_with_slash_has (s : string) :
  ends_with_slash s = true -> has_slash s = true.
Proof.
  induction s as [|c s IH]; simpl; [discriminate|].
  destruct s as [|c' s'].
  - intros ->. reflexivity.
  - intros H. rewrite (IH H). apply orb_true_r.
Qed.

Lemma ends_with_slash_app (s : string) : ends_with_slash (s ++ "/") = true.
Proof.
  induction s as [|c s IH]; [reflexivity|].
  simpl. destruct (s ++ "/")%string eqn:E; [destruct s; discriminate|exact IH].
Qed.

Lemma strip_prefix_app (pre s n : string) :
  strip_prefix pre s = Some n -> s = (pre ++ n)%string.
Proof.
  revert s. induction pre as [|a pre IH]; simpl; intros s H.
  - inversion H. reflexivity.
  - destruct s as [|b s]; [discriminate|].
    destruct (Ascii.eqb a b) eqn:E; [|discriminate].
    apply Ascii.eqb_eq in E. subst. rewrite (IH _ H). reflexivity.
Qed.

Lemma dir_prefix_cases (p : string) :
  dir_prefix p = EmptyString \/ ends_with_slash (dir_prefix p) = true.
Proof.
  destruct p as [|c p]; [left; reflexivity|right].
  unfold dir_prefix. destruct (ends_with_slash (String c p)) eqn:E; [exact E|].
  apply ends_with_slash_app.
Qed.

Lemma child_name_inv (p k n : string) :
  child_name p k = Some n ->
  k = (dir_prefix p ++ n)%string /\ n <> EmptyString /\ has_slash n = false.
Proof.
  unfold child_name. destruct (strip_prefix (dir_prefix p) k) as [n'|] eqn:H; [|discriminate].
  apply strip_prefix_app in H. destruct n' as [|c n']; [discriminate|].
  destruct (has_slash (String c n')) eqn:Hs; [discriminate|].
  intros E. inversion E; subst. split; [reflexivity|]. split; [discriminate|exact Hs].
Qed.

(** A name without slash is an entry of the working directory only. *)
Lemma child_name_slash_free (p k n : string) :
  has_slash k = false -> child_name p k = Some n -> n = k.
Proof.
  intros Hk H. apply child_name_inv in H as (E & _ & _).
  destruct (dir_prefix_cases p) as [Hp|Hp].
  - rewrite Hp in E. simpl in E. symmetry. exact E.
  - apply ends_with_slash_has in Hp. rewrite E, has_slash_app, Hp in Hk. discriminate.
Qed.

(** ** The pages of a directory *)

Lemma list_filter_perm {A} (f : A -> bool) (l1 l2 : list A) :
  Permutation l1 l2 -> Permutation (List.filter f l1) (List.filter f l2).
Proof.
  induction 1 as [|x l1 l2 _ IH|x y l|l1 l2 l3 _ IH1 _ IH2]; simpl.
  - constructor.
  - destruct (f x); [constructor|]; exact IH.
  - destruct (f x), (f y); try reflexivity. constructor.
  - etransitivity; eassumption.
Qed.

Lemma pages_of_sorted (listing : list string) : StronglySorted str_le (pages_of listing).
Proof. apply StronglySorted_merge_sort; apply _. Qed.

Lemma pages_of_permutation (listing : list string) :
  Permutation (pages_of listing) (List.filter (fun x => endswith x ".tif") listing).
Proof. apply merge_sort_Permutation. Qed.

(** The pages do not depend on the order of the listing. *)
Lemma pages_of_perm (l1 l2 : list string) :
  Permutation l1 l2 -> pages_of l1 = pages_of l2.
Proof.
  intros H. apply (Sorted_unique str_le).
  - apply Sorted_merge_sort; apply _.
  - apply Sorted_merge_sort; apply _.
  - rewrite !pages_of_permutation. apply list_filter_perm. exact H.
Qed.

Lemma dir_entries_insert (m : gmap string node) (k : string) (v : node) (p : string) :
  m !! k = None ->
  Permutation (dir_entries (<[k := v]> m) p)
    (match child_name p k with
     | Some n => n :: dir_entries m p
     | None => dir_entries m p
     end).
Proof.
  intros H. unfold dir_entries. rewrite (map_to_list_insert m k v H). simpl.
  destruct (child_name p k); reflexivity.
Qed.

Lemma pages_ensured_output (d : string) (w : world) :
  pages_of (dir_entries (fs (ensured "output" w)) d) = pages_of (dir_entries (fs w) d).
Proof.
  unfold ensured. destruct (fs w !! "output") eqn:H; [reflexivity|]. simpl.
  destruct (child_name d "output") as [n|] eqn:Hc.
  - assert (n = "output") as ->
      by (eapply child_name_slash_free; [|exact Hc]; reflexivity).
    apply (Sorted_unique str_le).
    + apply Sorted_merge_sort; apply _.
    + apply Sorted_merge_sort; apply _.
    + rewrite !pages_of_permutation.
      rewrite (list_filter_perm _ _ _ (dir_entries_insert _ _ Dir d H)), Hc.
      reflexivity.
  - apply pages_of_perm. rewrite (dir_entries_insert _ _ Dir d H), Hc. reflexivity.
Qed.

(** ** Directories and commands *)

Lemma bind_assoc {A B C} (c : io A) (f : A -> io B) (g : B -> io C) (w : world) :
  ((c ≫= f) ≫= g) w = (c ≫= (fun x => f x ≫= g)) w.
Proof. io_unfold. destruct (c w) as [[a|e] w']; reflexivity. Qed.

Lemma create_directory_ensured (d : string) (w : world) :
  (fs w !! d = None -> parent_check (fs w) d = Ok tt) ->
  create_directory d w = (Ok d, ensured d w).
Proof.
  intros H. unfold create_directory, os_path_exists, os_mkdir, ensured. io_unfold. simpl.
  destruct (fs w !! d) as [n|] eqn:E.
  - rewrite bool_decide_eq_true_2 by eauto. reflexivity.
  - rewrite bool_decide_eq_false_2 by (intros [? ?]; discriminate). simpl.
    rewrite E, (H eq_refl). reflexivity.
Qed.

Lemma ensured_present (d : string) (w : world) : is_Some (fs (ensured d w) !! d).
Proof.
  unfold ensured. destruct (fs w !! d) eqn:E; [rewrite E; eauto|].
  simpl. rewrite lookup_insert_eq. eauto.
Qed.

Lemma ensured_other (d p : string) (w : world) :
  p <> d -> fs (ensured d w) !! p = fs w !! p.
Proof.
  intros H. unfold ensured. destruct (fs w !! d); [reflexivity|].
  simpl. apply lookup_insert_ne. congruence.
Qed.

Lemma ensured_dir (d p : string) (w : world) :
  fs w !! p = Some Dir -> fs (ensured d w) !! p = Some Dir.
Proof.
  intros H. unfold ensured. destruct (fs w !! d) eqn:E; [exact H|].
  simpl. rewrite lookup_insert_ne; [exact H|]. congruence.
Qed.

Lemma os_listdir_dir (d : string) (w : world) :
  fs w !! d = Some Dir -> os_listdir d w = (Ok (dir_entries (fs w) d), w).
Proof. intros H. unfold os_listdir. rewrite H. reflexivity. Qed.

Section Commands.

Variable exec : list string -> gmap string node -> exec_result.

Lemma run_eq (args : list string) (w : world) :
  run exec args w
  = match exec args (fs w) with
    | NoSuchProgram => (Raise FileNotFoundError, World (fs w) (trace w ++ [ERun args]))
    | Exited code after =>
        (if (code =? 0)%Z then Ok tt else Raise (CalledProcessError args code),
         World after (trace w ++ [ERun args]))
    end.
Proof.
  unfold run. io_unfold. simpl. destruct (exec args (fs w)); reflexivity.
Qed.

Lemma for_each_run (cmds : list (list string)) (w : world) :
  all_succeed exec cmds (fs w) = true ->
  for_each cmds (run exec) w
  = (Ok tt, World (run_all exec cmds (fs w)) (trace w ++ map ERun cmds)).
Proof.
  revert w. induction cmds as [|args cmds IH]; intros w H.
  - simpl. rewrite app_nil_r. destruct w; reflexivity.
  - simpl in H. rewrite for_each_cons, run_eq. simpl.
    destruct (exec args (fs w)) as [|code after] eqn:E; [discriminate|].
    apply andb_prop in H as [Hc H]. rewrite Hc.
    rewrite IH by exact H. simpl. rewrite <- app_assoc. reflexivity.
Qed.

Lemma convert_page_eq (dirname book : string) (i : nat) (page : string) (w : world) :
  convert_page exec dirname book (i, page) w
  = for_each [encode_cmd dirname page; merge_cmd book i] (run exec) w.
Proof.
  unfold convert_page, merge_cmd, encode_cmd, create_cmd, insert_cmd.
  rewrite for_each_cons. io_unfold.
  destruct (run exec _ w) as [[[]|e] w1]; [|reflexivity].
  rewrite for_each_cons.
  destruct (i =? 1)%nat;
    (destruct (run exec _ w1) as [[[]|e] w2]; reflexivity).
Qed.

Lemma convert_pages_commands (dirname book : string) (i : nat) (pages : list string)
  (w : world) :
  for_each (enumerate i pages) (convert_page exec dirname book) w
  = for_each
      (flat_map (fun ip => [encode_cmd dirname (snd ip); merge_cmd book (fst ip)])
         (enumerate i pages))
      (run exec) w.
Proof.
  revert i w. induction pages as [|page pages IH]; intros i w; [reflexivity|].
  simpl enumerate. simpl flat_map.
  rewrite for_each_cons, convert_page_eq.
  change (?a :: ?b :: ?l) with ([a; b] ++ l) at 2. rewrite for_each_app.
  destruct (for_each [_; _] (run exec) w) as [[[]|e] w1]; [apply IH|reflexivity].
Qed.

Lemma commands_later (dirname book : string) (i : nat) (pages : list string) :
  flat_map (fun ip => [encode_cmd dirname (snd ip); merge_cmd book (fst ip)])
    (enumerate (S (S i)) pages)
  = flat_map (fun page => [encode_cmd dirname page; insert_cmd book]) pages.
Proof.
  revert i. induction pages as [|page pages IH]; intros i; [reflexivity|].
  simpl. rewrite IH. reflexivity.
Qed.

(** Numbering the pages from 1 and testing for 1 gives the commands the
    specification lists. *)
Lemma commands_assembly (dirname book : string) (pages : list string) :
  flat_map (fun ip => [encode_cmd dirname (snd ip); merge_cmd book (fst ip)])
    (enumerate 1 pages)
  = assembly_commands dirname book pages.
Proof.
  destruct pages as [|first others]; [reflexivity|].
  simpl. rewrite commands_later. reflexivity.
Qed.

End Commands.

Lemma merge_count_later (dirname book flag : string) (pages : list string) :
  merge_count flag
    (flat_map (fun page => [encode_cmd dirname page; insert_cmd book]) pages)
  = if String.eqb "-i" flag then length pages else 0.
Proof.
  unfold merge_count. induction pages as [|page pages IH].
  - destruct (String.eqb "-i" flag); reflexivity.
  - cbn [flat_map app List.filter].
    change (is_merge flag (encode_cmd dirname page)) with false.
    change (is_merge flag (insert_cmd book)) with (String.eqb "-i" flag).
    destruct (String.eqb "-i" flag); cbn [length]; rewrite IH; reflexivity.
Qed.

(** ** The Document Assembler *)

Section Assembler.

Variable exec : list string -> gmap string node -> exec_result.

Lemma create_djvu_eq (dirname : string) (w : world) :
  fs w !! dirname = Some Dir ->
  create_djvu exec dirname w
  = match
      for_each
        (assembly_commands dirname (book_djvu "output" dirname)
           (pages_of (dir_entries (fs w) dirname)))
        (run exec) (ensured "output" w)
    with
    | (Ok _, w') => os_remove tmp_djvu w'
    | (Raise e, w') => (Raise e, w')
    end.
Proof.
  intros Hd. unfold create_djvu.
  rewrite (bind_ok _ _ _ _ _ (create_directory_ensured "output" w (fun _ => eq_refl))).
  rewrite (bind_ok _ _ _ _ _ (os_listdir_dir dirname _ (ensured_dir "output" _ _ Hd))).
  rewrite pages_ensured_output.
  unfold mbind, io_bind, bind at 1.
  rewrite convert_pages_commands, commands_assembly.
  destruct (for_each _ (run exec) (ensured "output" w)) as [[[]|e] w']; reflexivity.
Qed.

Lemma os_remove_eq (p : string) (w : world) :
  os_remove p w
  = match fs w !! p with
    | Some (File _) => (Ok tt, World (delete p (fs w)) (trace w ++ [ERemove p]))
    | Some Dir => (Raise IsADirectoryError, World (fs w) (trace w ++ [ERemove p]))
    | None => (Raise FileNotFoundError, World (fs w) (trace w ++ [ERemove p]))
    end.
Proof.
  unfold os_remove. io_unfold. simpl. destruct (fs w !! p) as [[c|]|]; reflexivity.
Qed.

(** C4, amended.  In a workspace directory, with external commands that
    succeed: the pages are the entries ending in [.tif], each once, in
    sorted order, whatever the order of the listing; the commands run
    are, for the first page, its encoding and the merger in create
    mode, and for every later page its encoding and the merger in
    insert mode, so the merger runs in create mode once when there is a
    page, not at all when there is none, and in insert mode once for
    each page after the first; then the removal of the temporary file
    is called, which is the last thing done, and after a normal return
    the file is gone. *)
Theorem C4_pages_merged_in_sorted_order
  (dirname : string) (w : world) (pages : list string) (cmds : list (list string)) :
  fs w !! dirname = Some Dir ->
  pages = pages_of (dir_entries (fs w) dirname) ->
  cmds = assembly_commands dirname (book_djvu "output" dirname) pages ->
  all_succeed exec cmds (fs (ensured "output" w)) = true ->
  StronglySorted str_le pages
  /\ Permutation pages
       (List.filter (fun x => endswith x ".tif") (dir_entries (fs w) dirname))
  /\ (forall listing,
        Permutation listing (dir_entries (fs w) dirname) -> pages_of listing = pages)
  /\ merge_count "-c" cmds = (if pages is [] then 0 else 1)
  /\ merge_count "-i" cmds = length pages - 1
  /\ create_djvu exec dirname w
     = os_remove tmp_djvu
         (World (run_all exec cmds (fs (ensured "output" w)))
            (trace (ensured "output" w) ++ map ERun cmds))
  /\ trace (snd (create_djvu exec dirname w))
     = trace (ensured "output" w) ++ map ERun cmds ++ [ERemove tmp_djvu]
  /\ (forall w',
        create_djvu exec dirname w = (Ok tt, w') ->
        fs w' = delete tmp_djvu (run_all exec cmds (fs (ensured "output" w)))
        /\ fs w' !! tmp_djvu = None).
Proof.
  intros Hd -> -> Hrun.
  assert (create_djvu exec dirname w
          = os_remove tmp_djvu
              (World
                 (run_all exec
                    (assembly_commands dirname (book_djvu "output" dirname)
                       (pages_of (dir_entries (fs w) dirname)))
                    (fs (ensured "output" w)))
                 (trace (ensured "output" w)
                    ++ map ERun
                         (assembly_commands dirname (book_djvu "output" dirname)
                            (pages_of (dir_entries (fs w) dirname)))))) as Heq.
  { rewrite (create_djvu_eq dirname w Hd), (for_each_run exec _ _ Hrun). reflexivity. }
  split; [apply pages_of_sorted|]. split; [apply pages_of_permutation|].
  split; [intros listing H; apply pages_of_perm; exact H|].
  split; [|split].
  - destruct (pages_of (dir_entries (fs w) dirname)) as [|first others]; [reflexivity|].
    unfold assembly_commands. unfold merge_count. rewrite List.filter_app, length_app.
    fold (merge_count "-c" (flat_map (fun page => [encode_cmd dirname page;
            insert_cmd (book_djvu "output" dirname)]) others)).
    rewrite merge_count_later. reflexivity.
  - destruct (pages_of (dir_entries (fs w) dirname)) as [|first others]; [reflexivity|].
    unfold assembly_commands. unfold merge_count. rewrite List.filter_app, length_app.
    fold (merge_count "-i" (flat_map (fun page => [encode_cmd dirname page;
            insert_cmd (book_djvu "output" dirname)]) others)).
    rewrite merge_count_later. simpl. lia.
  - split; [exact Heq|]. rewrite Heq, os_remove_eq. split.
    + simpl. rewrite <- app_assoc.
      destruct (run_all exec _ _ !! tmp_djvu) as [[c|]|]; reflexivity.
    + intros w'. simpl.
      destruct (run_all exec _ _ !! tmp_djvu) as [[c|]|]; try discriminate.
      intros H. inversion H; subst. simpl. split; [reflexivity|apply lookup_delete_eq].
Qed.

End Assembler.

Lemma book_not_output (dirname : string) : book_djvu "output" dirname <> "output".
Proof.
  unfold book_djvu, os_path_join.
  destruct (starts_with_slash (dirname ++ ".djvu")) eqn:E.
  - intros H. rewrite H in E. discriminate.
  - discriminate.
Qed.

Section EmptyWorkspace.

Variable str_of : pyval -> string.
Variable json_loads : string -> result pyval.
Variable http_get : string -> option (string * string) -> result string.
Variable exec : list string -> gmap string node -> exec_result.
Variable username password : string.

Local Abbreviation download_article :=
  (download_files_of_article str_of json_loads http_get username password).
Local Abbreviation process :=
  (process_article str_of json_loads http_get exec username password).

(** C9.  In a workspace without an entry ending in [.tif] the assembly
    makes sure that the output directory exists and then only tries to
    remove the temporary file: no command is run and no file is
    written, so the document of the article is as absent or present as
    before.  When the temporary file does not exist the removal raises
    the missing-file error, which ends the whole run. *)
Theorem C9_empty_workspace_only_removes
  (dirname : string) (w : world) :
  fs w !! dirname = Some Dir ->
  List.filter (fun x => endswith x ".tif") (dir_entries (fs w) dirname) = [] ->
  is_Some (fs (ensured "output" w) !! "output")
  /\ create_djvu exec dirname w = os_remove tmp_djvu (ensured "output" w)
  /\ trace (snd (create_djvu exec dirname w))
     = trace (ensured "output" w) ++ [ERemove tmp_djvu]
  /\ fs (snd (create_djvu exec dirname w)) !! book_djvu "output" dirname
     = fs w !! book_djvu "output" dirname
  /\ (fs w !! tmp_djvu = None ->
      create_djvu exec dirname w
      = (Raise FileNotFoundError,
         World (fs (ensured "output" w))
           (trace (ensured "output" w) ++ [ERemove tmp_djvu]))
      /\ forall error_log w0 rest,
           download_article dirname w0 = (Ok tt, w) ->
           for_each (dirname :: rest) (process error_log) w0
           = (Raise FileNotFoundError,
              World (fs (ensured "output" w))
                (trace (ensured "output" w) ++ [ERemove tmp_djvu]))).
Proof.
  intros Hd Hnone.
  assert (pages_of (dir_entries (fs w) dirname) = []) as Hp.
  { apply Permutation_nil. symmetry. rewrite <- Hnone. apply pages_of_permutation. }
  assert (create_djvu exec dirname w = os_remove tmp_djvu (ensured "output" w)) as Heq.
  { rewrite (create_djvu_eq exec dirname w Hd), Hp. reflexivity. }
  assert (fs (ensured "output" w) !! tmp_djvu = fs w !! tmp_djvu) as Ht.
  { apply ensured_other. discriminate. }
  split; [apply ensured_present|]. split; [exact Heq|].
  rewrite Heq, os_remove_eq, Ht. split; [|split].
  - destruct (fs w !! tmp_djvu) as [[c|]|]; reflexivity.
  - destruct (fs w !! tmp_djvu) as [[c|]|] eqn:E; simpl.
    + rewrite lookup_delete_ne.
      * apply ensured_other, book_not_output.
      * unfold book_djvu, os_path_join, tmp_djvu.
        destruct (starts_with_slash (dirname ++ ".djvu")) eqn:Es.
        -- intros H. rewrite <- H in Es. discriminate.
        -- discriminate.
    + apply ensured_other, book_not_output.
    + apply ensured_other, book_not_output.
  - intros Hmissing. rewrite Hmissing. split; [reflexivity|].
    intros error_log w0 rest Hdl. rewrite for_each_cons.
    rewrite (process_article_ok str_of json_loads http_get exec username password
               error_log dirname w0 w Hdl).
    rewrite Heq, os_remove_eq, Ht, Hmissing. reflexivity.
Qed.

End EmptyWorkspace.

(** ** The Image Downloader *)

Lemma split_last_slash_free (s : string) : has_slash s = false -> split_last s = None.
Proof.
  induction s as [|c s IH]; simpl; [reflexivity|].
  intros H. apply orb_false_elim in H as [Hc Hs]. rewrite (IH Hs), Hc. reflexivity.
Qed.

Lemma split_last_child (a n : string) :
  has_slash n = false -> split_last (a ++ "/" ++ n) = Some (a, n).
Proof.
  intros Hn. induction a as [|c a IH].
  - change (split_last (String ch_slash n) = Some (EmptyString, n)).
    cbn [split_last]. rewrite (split_last_slash_free n Hn). reflexivity.
  - change (split_last (String c (a ++ "/" ++ n)) = Some (String c a, n)).
    cbn [split_last]. rewrite IH. reflexivity.
Qed.

Lemma string_app_assoc (a b c : string) : ((a ++ b) ++ c = a ++ b ++ c)%string.
Proof.
  induction a as [|x a IH]; [reflexivity|].
  change (String x ((a ++ b) ++ c) = String x (a ++ b ++ c))%string.
  rewrite IH. reflexivity.
Qed.

Lemma plain_name_spec (s : string) :
  plain_name s = true -> s <> EmptyString /\ has_slash s = false.
Proof.
  destruct s as [|c s]; [discriminate|]. unfold plain_name.
  intros H. apply negb_true_iff in H. split; [discriminate|exact H].
Qed.

Lemma ends_with_slash_free (s : string) : has_slash s = false -> ends_with_slash s = false.
Proof.
  intros H. destruct (ends_with_slash s) eqn:E; [|reflexivity].
  apply ends_with_slash_has in E. congruence.
Qed.

(** A plain name under a plain directory name. *)
Lemma os_path_join_plain (a n : string) :
  plain_name a = true -> plain_name n = true ->
  os_path_join a n = (a ++ "/" ++ n)%string.
Proof.
  intros Ha Hn. apply plain_name_spec in Ha as [Ha Hsa], Hn as [Hn Hsn].
  unfold os_path_join, dir_prefix.
  destruct n as [|c n]; [congruence|]. simpl in Hsn. apply orb_false_elim in Hsn as [Hc _].
  simpl starts_with_slash. rewrite Hc.
  destruct a as [|c' a]; [congruence|].
  rewrite (ends_with_slash_free _ Hsa).
  rewrite string_app_assoc. reflexivity.
Qed.

Lemma join_not_dir (a n : string) :
  plain_name a = true -> plain_name n = true -> os_path_join a n <> a.
Proof.
  intros Ha Hn H. rewrite (os_path_join_plain a n Ha Hn) in H.
  apply (f_equal has_slash) in H. rewrite has_slash_app in H.
  apply plain_name_spec in Ha as [_ Ha]. rewrite Ha in H. discriminate.
Qed.

Lemma parent_check_plain (m : gmap string node) (a : string) :
  plain_name a = true -> parent_check m a = Ok tt.
Proof.
  intros Ha. apply plain_name_spec in Ha as [Ha Hs]. unfold parent_check.
  destruct a as [|c a]; [congruence|]. rewrite (split_last_slash_free _ Hs). reflexivity.
Qed.

Lemma parent_check_child (m : gmap string node) (a n : string) :
  plain_name a = true -> plain_name n = true -> m !! a = Some Dir ->
  parent_check m (os_path_join a n) = Ok tt.
Proof.
  intros Ha Hn Hd. rewrite (os_path_join_plain a n Ha Hn).
  apply plain_name_spec in Ha as [Ha _], Hn as [_ Hn]. unfold parent_check.
  rewrite (split_last_child a n Hn).
  destruct a as [|c a]; [congruence|]. simpl append. rewrite Hd. reflexivity.
Qed.

Section Downloader.

Variable http_get : string -> option (string * string) -> result string.

Local Abbreviation body := (body_of http_get).
Local Abbreviation store := (stored http_get).
Local Abbreviation events := (download_events http_get).
Local Abbreviation can_download := (downloadable http_get).

(** The body of the loop of [download_images]. *)
Local Abbreviation download_one target_dir :=
  (fun url_ : page_ref =>
     path ← lift (join_filename target_dir (filename url_));
     emit (EPrintRef url_);;
     img_data ← requests_get http_get (url url_) None;
     open_write path img_data).

Lemma download_one_ok (internal_id : string) (r : page_ref) (w : world) :
  plain_name internal_id = true ->
  fs w !! internal_id = Some Dir ->
  can_download (fs w) internal_id r = true ->
  download_one internal_id r w
  = (Ok tt,
     World (<[target internal_id r := File (body r)]> (fs w))
       (trace w ++ events internal_id r)).
Proof.
  intros Hid Hdir Hr. unfold downloadable in Hr.
  unfold download_events, body_of, target, name_of in *.
  destruct (filename r) as [| | |f| |]; try discriminate. simpl in Hr.
  apply andb_prop in Hr as [Hr Hfree]. apply andb_prop in Hr as [Hf Hget].
  unfold join_filename, requests_get, open_write. io_unfold. simpl.
  destruct (http_get (url r) None) as [b|]; [|discriminate]. simpl.
  rewrite (parent_check_child (fs w) internal_id f Hid Hf Hdir).
  rewrite <- !app_assoc. simpl.
  destruct (fs w !! os_path_join internal_id f) as [[c|]|]; try discriminate; reflexivity.
Qed.

Lemma can_download_after (internal_id : string) (r r' : page_ref) (m : gmap string node)
  (c : string) :
  can_download m internal_id r' = true ->
  can_download (<[target internal_id r := File c]> m) internal_id r' = true.
Proof.
  unfold downloadable. intros H.
  apply andb_prop in H as [H Hfree]. rewrite H. simpl.
  destruct (decide (target internal_id r = target internal_id r')) as [E|E].
  - rewrite E, lookup_insert_eq. reflexivity.
  - rewrite lookup_insert_ne by exact E. exact Hfree.
Qed.

Lemma target_not_workspace (internal_id : string) (r : page_ref) (m : gmap string node) :
  plain_name internal_id = true -> can_download m internal_id r = true ->
  target internal_id r <> internal_id.
Proof.
  unfold downloadable, target, name_of. intros Hid H.
  destruct (filename r) as [| | |f| |]; try discriminate. simpl in H.
  apply andb_prop in H as [H _]. apply andb_prop in H as [Hf _].
  apply join_not_dir; assumption.
Qed.

Lemma download_loop (internal_id : string) (refs : list page_ref) (w : world) :
  plain_name internal_id = true ->
  fs w !! internal_id = Some Dir ->
  forallb (can_download (fs w) internal_id) refs = true ->
  for_each refs (download_one internal_id) w
  = (Ok tt,
     World (store internal_id refs (fs w))
       (trace w ++ flat_map (events internal_id) refs)).
Proof.
  intros Hid. revert w. induction refs as [|r refs IH]; intros w Hdir Hall.
  - simpl. rewrite app_nil_r. destruct w; reflexivity.
  - simpl in Hall. apply andb_prop in Hall as [Hr Hall].
    rewrite for_each_cons, (download_one_ok internal_id r w Hid Hdir Hr).
    rewrite IH.
    + simpl. rewrite <- app_assoc. reflexivity.
    + simpl. rewrite lookup_insert_ne; [exact Hdir|].
      apply (target_not_workspace internal_id r (fs w) Hid Hr).
    + simpl. rewrite forallb_forall in Hall. apply forallb_forall.
      intros r' Hr'. apply can_download_after. apply Hall. exact Hr'.
Qed.

Lemma store_app (internal_id : string) (l1 l2 : list page_ref) (m : gmap string node) :
  store internal_id (l1 ++ l2) m = store internal_id l2 (store internal_id l1 m).
Proof. unfold stored. apply fold_left_app. Qed.

Lemma store_lookup_other (internal_id : string) (refs : list page_ref)
  (m : gmap string node) (k : string) :
  (forall r, In r refs -> target internal_id r <> k) ->
  store internal_id refs m !! k = m !! k.
Proof.
  revert m. induction refs as [|r refs IH]; intros m H; [reflexivity|].
  simpl. rewrite IH.
  - apply lookup_insert_ne. apply H. left. reflexivity.
  - intros r' Hr'. apply H. right. exact Hr'.
Qed.

Lemma can_download_ensured (internal_id : string) (refs : list page_ref) (w : world) :
  plain_name internal_id = true ->
  forallb (can_download (fs w) internal_id) refs = true ->
  forallb (can_download (fs (ensured internal_id w)) internal_id) refs = true.
Proof.
  intros Hid H. rewrite forallb_forall in H. apply forallb_forall. intros r Hr.
  specialize (H r Hr). pose proof (target_not_workspace internal_id r _ Hid H) as Hne.
  unfold downloadable in *. rewrite (ensured_other internal_id _ w Hne). exact H.
Qed.

Lemma ensured_workspace (internal_id : string) (w : world) :
  workspace_usable (fs w) internal_id = true ->
  fs (ensured internal_id w) !! internal_id = Some Dir.
Proof.
  unfold workspace_usable, ensured.
  destruct (fs w !! internal_id) as [[c|]|] eqn:E; try discriminate; intros _.
  - exact E.
  - simpl. apply lookup_insert_eq.
Qed.

Lemma download_images_eq (refs : list page_ref) (internal_id : string) (w : world) :
  plain_name internal_id = true ->
  workspace_usable (fs w) internal_id = true ->
  forallb (can_download (fs w) internal_id) refs = true ->
  download_images http_get refs internal_id w
  = (Ok tt,
     World (store internal_id refs (fs (ensured internal_id w)))
       (trace (ensured internal_id w) ++ flat_map (events internal_id) refs)).
Proof.
  intros Hid Hws Hall. unfold download_images.
  rewrite (bind_ok _ _ _ _ _
             (create_directory_ensured internal_id w
                (fun _ => parent_check_plain (fs w) internal_id Hid))).
  apply download_loop.
  - exact Hid.
  - apply ensured_workspace. exact Hws.
  - apply can_download_ensured; assumption.
Qed.


End Downloader.

Lemma C4_witness :
  fs Scenario.downloaded_a1 !! "a1" = Some Dir
  /\ ["p1.tif"; "p2.tif"; "p3.tif"] = pages_of (dir_entries (fs Scenario.downloaded_a1) "a1")
  /\ Scenario.commands_a1
     = assembly_commands "a1" (book_djvu "output" "a1") ["p1.tif"; "p2.tif"; "p3.tif"]
  /\ all_succeed Scenario.tools Scenario.commands_a1
       (fs (ensured "output" Scenario.downloaded_a1)) = true
  /\ merge_count "-c" Scenario.commands_a1 = 1
  /\ merge_count "-i" Scenario.commands_a1 = 2
  /\ trace (snd (create_djvu Scenario.tools "a1" Scenario.downloaded_a1))
     = trace (ensured "output" Scenario.downloaded_a1)
         ++ map ERun Scenario.commands_a1 ++ [ERemove tmp_djvu].
Proof.
  split; [reflexivity|]. split; [reflexivity|]. split; [reflexivity|].
  split; [reflexivity|].
  destruct (C4_pages_merged_in_sorted_order Scenario.tools "a1" Scenario.downloaded_a1
              ["p1.tif"; "p2.tif"; "p3.tif"] Scenario.commands_a1
              eq_refl eq_refl eq_refl eq_refl)
    as (_ & _ & _ & Hc & Hi & _ & Ht & _).
  split; [exact Hc|]. split; [exact Hi|exact Ht].
Defined.

(** C4 as stated fails on a workspace without pages.  Article [a6] has
    no page, so its workspace is empty: the assembly runs no command at
    all, the merger in create mode not once but never, and the removal
    of the temporary file, which nothing has written, raises. *)
Lemma C4_empty_workspace_never_creates :
  fs Scenario.downloaded_a6 !! "a6" = Some Dir
  /\ pages_of (dir_entries (fs Scenario.downloaded_a6) "a6") = []
  /\ create_djvu Scenario.tools "a6" Scenario.downloaded_a6
     = (Raise FileNotFoundError,
        World (<[ "output" := Dir ]> (fs Scenario.downloaded_a6))
          (trace Scenario.downloaded_a6 ++ [EMkdir "output"; ERemove "tmp.djvu"]))
  /\ commands_run (trace (snd (create_djvu Scenario.tools "a6" Scenario.downloaded_a6)))
     = []
  /\ merge_count "-c"
       (commands_run (trace (snd (create_djvu Scenario.tools "a6" Scenario.downloaded_a6))))
     <> 1.
Proof.
  split; [reflexivity|]. split; [vm_compute; reflexivity|].
  split; [vm_compute; reflexivity|]. split; [vm_compute; reflexivity|].
  vm_compute. discriminate.
Qed.

Lemma C9_witness :
  fs Scenario.downloaded_a6 !! "a6" = Some Dir
  /\ List.filter (fun x => endswith x ".tif") (dir_entries (fs Scenario.downloaded_a6) "a6")
     = []
  /\ fs Scenario.downloaded_a6 !! tmp_djvu = None
  /\ Scenario.download "a6" Scenario.start = (Ok tt, Scenario.downloaded_a6)
  /\ for_each ["a6"; "a1"] Scenario.process Scenario.start
     = (Raise FileNotFoundError,
        World (fs (ensured "output" Scenario.downloaded_a6))
          (trace (ensured "output" Scenario.downloaded_a6) ++ [ERemove tmp_djvu])).
Proof.
  split; [reflexivity|]. split; [reflexivity|]. split; [reflexivity|].
  split; [reflexivity|].
  destruct (C9_empty_workspace_only_removes Scenario.str_unused Scenario.loads
              Scenario.http Scenario.tools Scenario.username Scenario.password
              "a6" Scenario.downloaded_a6 eq_refl eq_refl)
    as (_ & _ & _ & _ & H).
  destruct (H eq_refl) as [_ Hrun].
  apply (Hrun Scenario.error_log Scenario.start ["a1"]). reflexivity.
Defined.

(** The run of the specification's scenario: [a1] has three pages, the
    second page of [a2] has no TIFF.  The three images of [a1] are
    stored and merged into its document, [a2] is logged, and the run
    ends normally. *)
Example run_a1_a2 :
  fst Scenario.whole_run = Ok tt
  /\ fs (snd Scenario.whole_run) !! "a1/p1.tif" = Some (File "TIFF one")
  /\ fs (snd Scenario.whole_run) !! "a1/p2.tif" = Some (File "TIFF two")
  /\ fs (snd Scenario.whole_run) !! "a1/p3.tif" = Some (File "TIFF three")
  /\ fs (snd Scenario.whole_run) !! "output/a1.djvu"
     = Some (File "djvu of TIFF one + djvu of TIFF two + djvu of TIFF three")
  /\ fs (snd Scenario.whole_run) !! "output/a2.djvu" = None
  /\ fs (snd Scenario.whole_run) !! "a2" = None
  /\ fs (snd Scenario.whole_run) !! "20240101-120000.log" = Some (File ("a2" ++ Scenario.nl))
  /\ fs (snd Scenario.whole_run) !! "tmp.djvu" = None.
Proof. repeat split; vm_compute; reflexivity. Qed.

(** * Further properties of the script *)

(** ** [create_directory] *)

Lemma parent_check_not_exists (m : gmap string node) (p : string) :
  parent_check m p <> Raise FileExistsError.
Proof.
  unfold parent_check. destruct p as [|c p]; [discriminate|].
  destruct (split_last (String c p)) as [[h t]|]; [|discriminate].
  destruct h as [|a h]; [discriminate|].
  destruct (m !! String a h) as [[?|]|]; discriminate.
Qed.

Lemma create_directory_eq (d : string) (w : world) :
  create_directory d w
  = match fs w !! d with
    | Some _ => (Ok d, w)
    | None =>
        match parent_check (fs w) d with
        | Ok _ => (Ok d, World (<[d := Dir]> (fs w)) (trace w ++ [EMkdir d]))
        | Raise e => (Raise e, World (fs w) (trace w ++ [EMkdir d]))
        end
    end.
Proof.
  unfold create_directory, os_path_exists, os_mkdir. io_unfold. simpl.
  destruct (fs w !! d) as [n|] eqn:E.
  - rewrite bool_decide_eq_true_2 by eauto. reflexivity.
  - rewrite bool_decide_eq_false_2 by (intros [? ?]; discriminate). simpl.
    rewrite E. destruct (parent_check (fs w) d) as [[]|e]; reflexivity.
Qed.



(** ** [generate_url] *)

Lemma string_length_app (a b : string) :
  String.length (a ++ b) = String.length a + String.length b.
Proof.
  induction a as [|c a IH]; [reflexivity|].
  change (S (String.length (a ++ b)) = S (String.length a + String.length b)).
  rewrite IH. reflexivity.
Qed.

Lemma string_app_inj_r (a b s : string) : (a ++ s = b ++ s)%string -> a = b.
Proof.
  revert b. induction a as [|c a IH]; intros [|c' b] H.
  - reflexivity.
  - apply (f_equal String.length) in H. rewrite !string_length_app in H.
    cbn [String.length] in H. lia.
  - apply (f_equal String.length) in H. rewrite !string_length_app in H.
    cbn [String.length] in H. lia.
  - change (String c (a ++ s) = String c' (b ++ s))%string in H.
    inversion H; subst. f_equal. apply IH. assumption.
Qed.

(** X2.  Different identifiers have different metadata URLs: the
    identifier can be read back from the URL. *)
Theorem X2_generate_url_injective (id1 id2 : string) :
  generate_url id1 = generate_url id2 -> id1 = id2.
Proof.
  unfold generate_url. intros H.
  apply (String.app_inj "https://dokumentlager.nordiskamuseet.se/api/list/") in H.
  apply string_app_inj_r in H. exact H.
Qed.

Lemma X2_witness :
  generate_url "a1" = generate_url "a1" /\ "a1" = "a1".
Proof.
  split; [reflexivity|].
  apply (X2_generate_url_injective "a1" "a1"). reflexivity.
Defined.

(** ** [file_to_list] *)

Lemma has_char_app (c : ascii) (a b : string) :
  has_char c (a ++ b) = has_char c a || has_char c b.
Proof.
  induction a as [|x a IH]; [reflexivity|].
  change (Ascii.eqb x c || has_char c (a ++ b)
          = Ascii.eqb x c || has_char c a || has_char c b).
  rewrite IH. apply orb_assoc.
Qed.

Lemma universal_newlines_id (s : string) :
  has_char ch_cr s = false -> universal_newlines s = s.
Proof.
  induction s as [|c s IH]; [reflexivity|]. simpl. intros H.
  apply orb_false_elim in H as [Hc Hs]. rewrite Hc, (IH Hs). reflexivity.
Qed.

Lemma universal_newlines_cons (c : ascii) (s : string) :
  universal_newlines (String c s)
  = if Ascii.eqb c ch_cr then
      match s with
      | String c' _ =>
          if Ascii.eqb c' ch_lf then universal_newlines s
          else String ch_lf (universal_newlines s)
      | EmptyString => String ch_lf EmptyString
      end
    else String c (universal_newlines s).
Proof. reflexivity. Qed.

Lemma universal_newlines_no_cr (s : string) :
  has_char ch_cr (universal_newlines s) = false.
Proof.
  induction s as [|c s IH]; [reflexivity|]. rewrite universal_newlines_cons.
  destruct (Ascii.eqb c ch_cr) eqn:Hc.
  - destruct s as [|c' s']; [reflexivity|].
    destruct (Ascii.eqb c' ch_lf); [exact IH|].
    cbn [has_char]. rewrite IH. reflexivity.
  - cbn [has_char]. rewrite Hc, IH. reflexivity.
Qed.

Lemma readlines_line (id rest : string) :
  has_char ch_lf id = false ->
  readlines (id ++ String ch_lf rest) = (id ++ String ch_lf EmptyString)%string :: readlines rest.
Proof.
  induction id as [|c id IH]; intros H.
  - reflexivity.
  - simpl in H. apply orb_false_elim in H as [Hc Hid].
    change (readlines (String c (id ++ String ch_lf rest))
            = String c (id ++ String ch_lf EmptyString) :: readlines rest).
    cbn [readlines]. rewrite Hc, (IH Hid). reflexivity.
Qed.

Lemma rstrip_line_feed (s : string) : rstrip (s ++ String ch_lf EmptyString) = rstrip s.
Proof.
  induction s as [|c s IH]; [reflexivity|].
  change (rstrip (String c (s ++ String ch_lf EmptyString)) = rstrip (String c s)).
  cbn [rstrip]. rewrite IH. reflexivity.
Qed.

Lemma rstrip_fixed (s : string) :
  match last_char s with Some c => negb (is_space c) | None => true end = true ->
  rstrip s = s.
Proof.
  induction s as [|c s IH]; [reflexivity|].
  destruct s as [|c' s'].
  - simpl. intros H. apply negb_true_iff in H. rewrite H. reflexivity.
  - intros H. change (last_char (String c (String c' s'))) with (last_char (String c' s')) in H.
    cbn [rstrip]. cbn [rstrip] in IH. rewrite (IH H). reflexivity.
Qed.

(** [strip] leaves a string without outer whitespace as it is. *)
Lemma strip_fixed (s : string) : stripped s = true -> strip s = s.
Proof.
  unfold stripped, strip. intros H. apply andb_prop in H as [Hf Hl].
  destruct s as [|c s]; [reflexivity|].
  simpl lstrip. apply negb_true_iff in Hf. rewrite Hf.
  apply rstrip_fixed. exact Hl.
Qed.

Lemma strip_line (id : string) :
  stripped id = true -> strip (id ++ String ch_lf EmptyString) = id.
Proof.
  intros H. destruct id as [|c id]; [reflexivity|].
  pose proof H as H'. unfold stripped in H'. apply andb_prop in H' as [Hf Hl].
  apply negb_true_iff in Hf. unfold strip.
  change (lstrip (String c id ++ String ch_lf EmptyString))
    with (if is_space c then lstrip (id ++ String ch_lf EmptyString)
          else String c (id ++ String ch_lf EmptyString)).
  rewrite Hf.
  change (String c (id ++ String ch_lf EmptyString))
    with (String c id ++ String ch_lf EmptyString)%string.
  rewrite rstrip_line_feed. apply rstrip_fixed. exact Hl.
Qed.

Lemma clean_spec (id : string) :
  clean id = true ->
  stripped id = true /\ has_char ch_lf id = false /\ has_char ch_cr id = false.
Proof.
  unfold clean. rewrite !andb_true_iff, !negb_true_iff. tauto.
Qed.

Lemma lines_text_no_cr (ids : list string) :
  Forall (fun id => clean id = true) ids -> has_char ch_cr (lines_text ids) = false.
Proof.
  induction 1 as [|id ids Hid _ IH]; [reflexivity|].
  apply clean_spec in Hid as (_ & _ & Hcr).
  simpl. rewrite has_char_app, Hcr. simpl. exact IH.
Qed.

Lemma readlines_lines_text (ids : list string) :
  Forall (fun id => clean id = true) ids ->
  map strip (readlines (lines_text ids)) = ids.
Proof.
  induction 1 as [|id ids Hid _ IH]; [reflexivity|].
  apply clean_spec in Hid as (Hs & Hlf & _).
  simpl lines_text. rewrite (readlines_line id _ Hlf). simpl map.
  rewrite (strip_line id Hs), IH. reflexivity.
Qed.

(** X3.  A list of identifiers written one per line, each closed by a
    line feed, is read back exactly, provided every identifier is free
    of outer whitespace and of line breaks; empty identifiers
    included. *)
Theorem X3_file_to_list_reads_back (filename : string) (ids : list string) (w : world) :
  forallb clean ids = true ->
  fs w !! filename = Some (File (lines_text ids)) ->
  file_to_list filename w = (Ok ids, w).
Proof.
  intros Hc Hf. rewrite forallb_forall in Hc.
  assert (Forall (fun id => clean id = true) ids) as Hall
    by (apply List.Forall_forall; exact Hc).
  unfold file_to_list, open_read. io_unfold. rewrite Hf.
  rewrite (universal_newlines_id _ (lines_text_no_cr ids Hall)).
  rewrite (readlines_lines_text ids Hall). reflexivity.
Qed.

Lemma X3_witness :
  forallb clean ["a1"; ""; "b 2"] = true
  /\ fs (World {[ "ids.txt" := File (lines_text ["a1"; ""; "b 2"]) ]} []) !! "ids.txt"
     = Some (File (lines_text ["a1"; ""; "b 2"]))
  /\ file_to_list "ids.txt" (World {[ "ids.txt" := File (lines_text ["a1"; ""; "b 2"]) ]} [])
     = (Ok ["a1"; ""; "b 2"],
        World {[ "ids.txt" := File (lines_text ["a1"; ""; "b 2"]) ]} []).
Proof.
  split; [reflexivity|]. split; [reflexivity|].
  apply (X3_file_to_list_reads_back "ids.txt" ["a1"; ""; "b 2"]); reflexivity.
Defined.

Lemma join_lines_no_char (c : ascii) (ls : list string) :
  has_char c (join_lines ls) = false -> Forall (fun l => has_char c l = false) ls.
Proof.
  induction ls as [|l ls IH]; [constructor|].
  change (join_lines (l :: ls)) with (l ++ join_lines ls)%string.
  rewrite has_char_app. intros H. apply orb_false_elim in H as [Hl Hls].
  constructor; auto.
Qed.

Lemma lstrip_no_char (c : ascii) (s : string) :
  has_char c s = false -> has_char c (lstrip s) = false.
Proof.
  induction s as [|a s IH]; [reflexivity|]. intros H. simpl lstrip.
  destruct (is_space a); [|exact H].
  simpl in H. apply orb_false_elim in H as [_ H]. auto.
Qed.

Lemma rstrip_no_char (c : ascii) (s : string) :
  has_char c s = false -> has_char c (rstrip s) = false.
Proof.
  induction s as [|a s IH]; [reflexivity|]. intros H.
  simpl in H. apply orb_false_elim in H as [Ha Hs]. specialize (IH Hs).
  cbn [rstrip]. destruct (rstrip s) as [|b r].
  - destruct (is_space a); [reflexivity|]. simpl. rewrite Ha. reflexivity.
  - cbn [has_char] in *. rewrite Ha. exact IH.
Qed.

Lemma not_space_not_lf (a : ascii) : is_space a = false -> Ascii.eqb a ch_lf = false.
Proof.
  intros H. destruct (Ascii.eqb a ch_lf) eqn:E; [|reflexivity].
  apply Ascii.eqb_eq in E. subst. discriminate.
Qed.

Lemma rstrip_one_line (s : string) :
  one_line s = true -> has_char ch_lf (rstrip s) = false.
Proof.
  induction s as [|a s IH]; [discriminate|].
  destruct s as [|b s'].
  - intros _. simpl. destruct (is_space a) eqn:Ha; [reflexivity|].
    simpl. rewrite (not_space_not_lf a Ha). reflexivity.
  - intros H. change (one_line (String a (String b s')))
      with (negb (Ascii.eqb a ch_lf) && one_line (String b s')) in H.
    apply andb_prop in H as [Ha Hs]. apply negb_true_iff in Ha. specialize (IH Hs).
    cbn [rstrip] in *. destruct (rstrip s') as [|r0 r].
    + destruct (is_space b).
      * destruct (is_space a); [reflexivity|]. simpl. rewrite Ha. reflexivity.
      * cbn [has_char] in *. rewrite Ha. exact IH.
    + cbn [has_char] in *. rewrite Ha. exact IH.
Qed.

Lemma lstrip_one_line (s : string) :
  one_line s = true -> lstrip s = EmptyString \/ one_line (lstrip s) = true.
Proof.
  induction s as [|a s IH]; [discriminate|]. intros H. simpl lstrip.
  destruct (is_space a); [|right; exact H].
  destruct s as [|b s']; [left; reflexivity|].
  change (one_line (String a (String b s')))
    with (negb (Ascii.eqb a ch_lf) && one_line (String b s')) in H.
  apply andb_prop in H as [_ Hs]. auto.
Qed.

Lemma strip_one_line (l : string) :
  one_line l = true -> has_char ch_lf (strip l) = false.
Proof.
  intros H. unfold strip. destruct (lstrip_one_line l H) as [E|E].
  - rewrite E. reflexivity.
  - apply rstrip_one_line. exact E.
Qed.

Lemma strip_lines_clean (content : string) :
  Forall (fun id => clean id = true)
    (map strip (readlines (universal_newlines content))).
Proof.
  pose proof (readlines_one_line (universal_newlines content)) as Hone.
  pose proof (join_lines_no_char ch_cr (readlines (universal_newlines content))) as Hcr.
  rewrite readlines_join in Hcr. specialize (Hcr (universal_newlines_no_cr content)).
  apply List.Forall_forall. intros id Hid. apply in_map_iff in Hid as (l & <- & Hl).
  rewrite List.Forall_forall in Hone, Hcr.
  unfold clean. rewrite strip_stripped, (strip_one_line l (Hone l Hl)). simpl.
  unfold strip. rewrite (rstrip_no_char _ _ (lstrip_no_char _ _ (Hcr l Hl))). reflexivity.
Qed.

(** X4.  Whatever the file holds, every entry the loader returns is
    free of outer whitespace and contains neither a line feed nor a
    carriage return. *)
Theorem X4_loaded_entries_are_clean
  (filename : string) (ids : list string) (w w' : world) :
  file_to_list filename w = (Ok ids, w') ->
  Forall (fun id => clean id = true) ids.
Proof.
  unfold file_to_list, open_read. io_unfold. intros H.
  destruct (fs w !! filename) as [[content|]|]; try discriminate.
  inversion H; subst. apply strip_lines_clean.
Qed.

Lemma X4_witness :
  file_to_list "ids.txt" (World {[ "ids.txt" := File Scenario.ids_blank_txt ]} [])
  = (Ok ["a1"; ""; "a2"], World {[ "ids.txt" := File Scenario.ids_blank_txt ]} [])
  /\ Forall (fun id => clean id = true) ["a1"; ""; "a2"].
Proof.
  split; [reflexivity|].
  apply (X4_loaded_entries_are_clean "ids.txt" ["a1"; ""; "a2"]
           (World {[ "ids.txt" := File Scenario.ids_blank_txt ]} [])
           (World {[ "ids.txt" := File Scenario.ids_blank_txt ]} [])).
  reflexivity.
Defined.

(** ** [get_image_paths] *)

Lemma list_filter_idem {A} (f : A -> bool) (l : list A) :
  List.filter f (List.filter f l) = List.filter f l.
Proof.
  induction l as [|x l IH]; [reflexivity|]. simpl.
  destruct (f x) eqn:E; simpl; [rewrite E, IH|]; auto.
Qed.

Lemma filter_keeps_forallb {A} (p f : A -> bool) (l : list A) :
  forallb p l = true -> forallb p (List.filter f l) = true.
Proof.
  rewrite !forallb_forall. intros H x Hx. apply filter_In in Hx as [Hx _]. auto.
Qed.

(** X5.  Records of other kinds are read for their entity kind only:
    when every record carries that field, the outcome of extraction,
    references or exception, is the one of the tracked records
    alone. *)
Theorem X5_untracked_records_are_skipped
  (str_of : pyval -> string) (json_loads : string -> result pyval)
  (text text' : string) (records : list pyval) :
  json_loads text = Ok (PList records) ->
  json_loads text' = Ok (PList (List.filter tracked records)) ->
  forallb (has_key "entityType") records = true ->
  get_image_paths str_of json_loads text = get_image_paths str_of json_loads text'.
Proof.
  intros H1 H2 Hk. unfold get_image_paths. rewrite H1, H2. cbn [rbind].
  unfold extract_paths. simpl py_iter. cbn [rbind].
  rewrite (resources_keyed records Hk).
  rewrite (resources_keyed _ (filter_keeps_forallb _ tracked records Hk)).
  rewrite list_filter_idem. reflexivity.
Qed.

Lemma X5_witness :
  More.loads "metadata of a5" = Ok (PList (records_of Scenario.meta_a5))
  /\ More.loads "metadata of a5 pages"
     = Ok (PList (List.filter tracked (records_of Scenario.meta_a5)))
  /\ forallb (has_key "entityType") (records_of Scenario.meta_a5) = true
  /\ get_image_paths Scenario.str_unused More.loads "metadata of a5"
     = get_image_paths Scenario.str_unused More.loads "metadata of a5 pages".
Proof.
  split; [reflexivity|]. split; [reflexivity|]. split; [reflexivity|].
  apply (X5_untracked_records_are_skipped Scenario.str_unused More.loads
           "metadata of a5" "metadata of a5 pages" (records_of Scenario.meta_a5));
    reflexivity.
Defined.

Lemma images_keyed (es : list pyval) :
  forallb (has_field "mimeType") es = true ->
  comp_filter tiff_cond es = Ok (List.filter is_tiff es).
Proof.
  intros H. rewrite forallb_forall in H. apply comp_filter_ok.
  apply List.Forall_forall. intros e He. apply tiff_cond_shaped. auto.
Qed.

(** X6.  Of an entry that is not image/tiff only the MIME type is
    read: when every entry of a file list declares one, the outcome for
    the list is the one for its image/tiff entries alone. *)
Theorem X6_other_renditions_are_skipped
  (str_of : pyval -> string) (entries : list pyval) :
  forallb (has_field "mimeType") entries = true ->
  path_of_file str_of (PList entries)
  = path_of_file str_of (PList (List.filter is_tiff entries)).
Proof.
  intros H. unfold path_of_file. simpl py_iter. cbn [rbind].
  rewrite (images_keyed entries H).
  rewrite (images_keyed _ (filter_keeps_forallb _ is_tiff entries H)).
  rewrite list_filter_idem. reflexivity.
Qed.

Lemma X6_witness :
  forallb (has_field "mimeType")
    [Scenario.jpeg "j1" "p1.jpg"; Scenario.tiff "r1" "p1.tif"; PDict [("value", PDict [("mimeType", PStr "image/png")])]] = true
  /\ path_of_file Scenario.str_unused
       (PList [Scenario.jpeg "j1" "p1.jpg"; Scenario.tiff "r1" "p1.tif";
               PDict [("value", PDict [("mimeType", PStr "image/png")])]])
     = path_of_file Scenario.str_unused (PList [Scenario.tiff "r1" "p1.tif"]).
Proof.
  split; [reflexivity|].
  apply (X6_other_renditions_are_skipped Scenario.str_unused
           [Scenario.jpeg "j1" "p1.jpg"; Scenario.tiff "r1" "p1.tif";
            PDict [("value", PDict [("mimeType", PStr "image/png")])]]).
  reflexivity.
Defined.

Lemma extract_not_a_list (str_of : pyval -> string) (response : pyval) :
  not_a_list response = true -> extract_paths str_of response = Raise TypeError.
Proof.
  destruct response as [| | |s| |d]; try discriminate; try reflexivity.
  - destruct s; [discriminate|reflexivity].
  - destruct d as [|[k v] d]; [discriminate|reflexivity].
Qed.

Section Unexpected.

Variable str_of : pyval -> string.
Variable json_loads : string -> result pyval.
Variable http_get : string -> option (string * string) -> result string.
Variable exec : list string -> gmap string node -> exec_result.
Variable username password : string.

Local Abbreviation process :=
  (process_article str_of json_loads http_get exec username password).


End Unexpected.


Lemma value_field_keyed (k : string) (x : pyval) :
  has_field "mimeType" x = true ->
  value_field k x = if has_field k x then Ok (field k x) else Raise (KeyError k).
Proof.
  intros H. destruct (has_field k x) eqn:E; [apply has_field_ok; exact E|].
  unfold has_field, entry_field, value_field in *.
  destruct (lookup_key "value" x) as [v|] eqn:Hv; [|discriminate].
  apply getitem_lookup in Hv. rewrite Hv. simpl.
  apply getitem_missing.
  - destruct v; try discriminate. reflexivity.
  - destruct (lookup_key k v); [discriminate|reflexivity].
Qed.

Lemma comp_map_field (k : string) (images : list pyval) :
  forallb (has_field "mimeType") images = true ->
  comp_map (value_field k) images
  = if forallb (has_field k) images then Ok (map (field k) images)
    else Raise (KeyError k).
Proof.
  induction images as [|x images IH]; [reflexivity|]. simpl. intros H.
  apply andb_prop in H as [Hx H]. rewrite (value_field_keyed k x Hx), (IH H).
  destruct (has_field k x); [|reflexivity]. simpl.
  destruct (forallb (has_field k) images); reflexivity.
Qed.

(** X8.  Every image/tiff entry of a file list is read in full, not
    only the first one that is used: when one of them, wherever it
    stands, lacks the reference, the profile or the original file name,
    the key-lookup error for that field is raised. *)
Theorem X8_incomplete_tiff_entry_raises
  (str_of : pyval -> string) (entries : list pyval) :
  forallb (has_field "mimeType") entries = true ->
  existsb incomplete (List.filter is_tiff entries) = true ->
  exists k,
    (k = "reference" \/ k = "profile" \/ k = "originalFileName")
    /\ path_of_file str_of (PList entries) = Raise (KeyError k).
Proof.
  intros Hm Hinc. unfold path_of_file. simpl py_iter. cbn [rbind].
  rewrite (images_keyed entries Hm). cbn [rbind].
  pose proof (filter_keeps_forallb _ is_tiff entries Hm) as Hi.
  set (images := List.filter is_tiff entries) in *.
  rewrite !(comp_map_field _ images Hi).
  destruct (forallb (has_field "reference") images) eqn:Hr;
    [|exists "reference"; auto].
  rewrite Hi. cbn [rbind].
  destruct images as [|x images']; [discriminate|]. cbn [map index0 rbind].
  destruct (forallb (has_field "profile") (x :: images')) eqn:Hp;
    [|exists "profile"; auto].
  cbn [map index0 rbind].
  destruct (forallb (has_field "originalFileName") (x :: images')) eqn:Hn;
    [|exists "originalFileName"; auto].
  exfalso. apply existsb_exists in Hinc as (e & He & Hinc).
  rewrite forallb_forall in Hr, Hp, Hn. unfold incomplete in Hinc.
  rewrite (Hr e He), (Hp e He), (Hn e He) in Hinc. discriminate.
Qed.

Lemma X8_witness :
  forallb (has_field "mimeType")
    [Scenario.tiff "r1" "p1.tif";
     PDict [("value", PDict [("mimeType", PStr "image/tiff"); ("reference", PStr "r1b")])]]
  = true
  /\ existsb incomplete
       (List.filter is_tiff
          [Scenario.tiff "r1" "p1.tif";
           PDict [("value", PDict [("mimeType", PStr "image/tiff");
                                   ("reference", PStr "r1b")])]]) = true
  /\ exists k,
       (k = "reference" \/ k = "profile" \/ k = "originalFileName")
       /\ path_of_file Scenario.str_unused
            (PList [Scenario.tiff "r1" "p1.tif";
                    PDict [("value", PDict [("mimeType", PStr "image/tiff");
                                            ("reference", PStr "r1b")])]])
          = Raise (KeyError k).
Proof.
  split; [reflexivity|]. split; [reflexivity|].
  apply (X8_incomplete_tiff_entry_raises Scenario.str_unused
           [Scenario.tiff "r1" "p1.tif";
            PDict [("value", PDict [("mimeType", PStr "image/tiff");
                                    ("reference", PStr "r1b")])]]);
    reflexivity.
Defined.

(** ** [download_images] *)

Section DownloadFailures.

Variable http_get : string -> option (string * string) -> result string.

(** The world in which the references [pre] have been downloaded into
    the workspace. *)
Local Abbreviation after_downloads internal_id pre w :=
  (World (stored http_get internal_id pre (fs (ensured internal_id w)))
     (trace (ensured internal_id w)
        ++ flat_map (download_events http_get internal_id) pre)).

Lemma download_images_prefix
  (pre rest : list page_ref) (internal_id : string) (w : world) :
  plain_name internal_id = true ->
  workspace_usable (fs w) internal_id = true ->
  forallb (downloadable http_get (fs w) internal_id) pre = true ->
  download_images http_get (pre ++ rest) internal_id w
  = for_each rest
      (fun url_ : page_ref =>
         path ← lift (join_filename internal_id (filename url_));
         emit (EPrintRef url_);;
         img_data ← requests_get http_get (url url_) None;
         open_write path img_data)
      (after_downloads internal_id pre w).
Proof.
  intros Hid Hws Hpre. unfold download_images.
  rewrite (bind_ok _ _ _ _ _
             (create_directory_ensured internal_id w
                (fun _ => parent_check_plain (fs w) internal_id Hid))).
  rewrite for_each_app.
  rewrite (download_loop http_get internal_id pre (ensured internal_id w) Hid
             (ensured_workspace internal_id w Hws)
             (can_download_ensured http_get internal_id pre w Hid Hpre)).
  reflexivity.
Qed.




(** X12.  When a file has the name of the workspace, the directory is
    not made and nothing is reported at that point; the first image is
    requested all the same, and writing it fails. *)
Theorem X12_file_in_place_of_workspace
  (r : page_ref) (rest : list page_ref) (f body content : string)
  (internal_id : string) (w : world) :
  plain_name internal_id = true ->
  fs w !! internal_id = Some (File content) ->
  filename r = PStr f ->
  plain_name f = true ->
  http_get (url r) None = Ok body ->
  fs w !! os_path_join internal_id f = None ->
  download_images http_get (r :: rest) internal_id w
  = (Raise NotADirectoryError,
     World (fs w)
       (trace w ++ [EPrintRef r; EGet (url r) None;
                    EWrite (os_path_join internal_id f) body])).
Proof.
  intros Hid Hfile Hf Hpf Hget Hfree. unfold download_images.
  rewrite (bind_ok _ _ _ _ _
             (create_directory_ensured internal_id w
                (fun _ => parent_check_plain (fs w) internal_id Hid))).
  assert (ensured internal_id w = w) as -> by (unfold ensured; rewrite Hfile; reflexivity).
  rewrite for_each_cons. unfold requests_get, open_write. io_unfold.
  rewrite Hf. simpl. rewrite Hget. simpl. rewrite Hfree.
  assert (parent_check (fs w) (os_path_join internal_id f) = Raise NotADirectoryError) as ->.
  { rewrite (os_path_join_plain internal_id f Hid Hpf).
    apply plain_name_spec in Hid as [Hne _], Hpf as [_ Hsf]. unfold parent_check.
    rewrite (split_last_child internal_id f Hsf).
    destruct internal_id as [|c s]; [congruence|]. simpl append. rewrite Hfile. reflexivity. }
  rewrite <- !app_assoc. reflexivity.
Qed.

End DownloadFailures.




Lemma X12_witness :
  plain_name "a1" = true
  /\ fs More.occupied !! "a1" = Some (File "not a directory")
  /\ filename More.page1 = PStr "p1.tif"
  /\ plain_name "p1.tif" = true
  /\ Scenario.http (url More.page1) None = Ok "TIFF one"
  /\ fs More.occupied !! os_path_join "a1" "p1.tif" = None
  /\ download_images Scenario.http [More.page1; More.page3] "a1" More.occupied
     = (Raise NotADirectoryError,
        World (fs More.occupied)
          (trace More.occupied
             ++ [EPrintRef More.page1; EGet (url More.page1) None;
                 EWrite (os_path_join "a1" "p1.tif") "TIFF one"])).
Proof.
  split; [reflexivity|]. split; [reflexivity|]. split; [reflexivity|].
  split; [reflexivity|]. split; [reflexivity|]. split; [reflexivity|].
  apply (X12_file_in_place_of_workspace Scenario.http More.page1 [More.page3]
           "p1.tif" "TIFF one" "not a directory" "a1" More.occupied); reflexivity.
Defined.

(** ** From the download to the assembly *)

Lemma strip_prefix_self (pre n : string) : strip_prefix pre (pre ++ n) = Some n.
Proof.
  induction pre as [|a pre IH]; [reflexivity|].
  change (strip_prefix (String a pre) (String a (pre ++ n)) = Some n).
  cbn [strip_prefix]. rewrite Ascii.eqb_refl. exact IH.
Qed.

Lemma strip_prefix_longer (a b : string) :
  b <> EmptyString -> strip_prefix (a ++ b) a = None.
Proof.
  intros Hb. induction a as [|c a IH].
  - destruct b; [congruence|reflexivity].
  - change (strip_prefix (String c (a ++ b)) (String c a) = None).
    cbn [strip_prefix]. rewrite Ascii.eqb_refl. exact IH.
Qed.

Lemma plain_not_absolute (n : string) : plain_name n = true -> starts_with_slash n = false.
Proof.
  intros H. apply plain_name_spec in H as [_ H]. destruct n as [|c n]; [reflexivity|].
  simpl in *. apply orb_false_elim in H as [H _]. exact H.
Qed.

Lemma dir_prefix_plain (a : string) : plain_name a = true -> dir_prefix a = (a ++ "/")%string.
Proof.
  intros H. apply plain_name_spec in H as [Hne Hs]. unfold dir_prefix.
  destruct a as [|c a]; [congruence|]. rewrite (ends_with_slash_free _ Hs). reflexivity.
Qed.

Lemma child_name_join (a n : string) :
  plain_name n = true -> child_name a (os_path_join a n) = Some n.
Proof.
  intros Hn. unfold os_path_join. rewrite (plain_not_absolute n Hn).
  unfold child_name. rewrite strip_prefix_self.
  apply plain_name_spec in Hn as [Hne Hs]. destruct n as [|c n]; [congruence|].
  rewrite Hs. reflexivity.
Qed.

Lemma child_name_self (a : string) : plain_name a = true -> child_name a a = None.
Proof.
  intros Ha. unfold child_name. rewrite (dir_prefix_plain a Ha).
  rewrite strip_prefix_longer by discriminate. reflexivity.
Qed.

Lemma os_path_join_inj (a n1 n2 : string) :
  plain_name n1 = true -> plain_name n2 = true ->
  os_path_join a n1 = os_path_join a n2 -> n1 = n2.
Proof.
  intros H1 H2. unfold os_path_join.
  rewrite (plain_not_absolute n1 H1), (plain_not_absolute n2 H2).
  apply String.app_inj.
Qed.

Lemma entry_of_lookup (m : gmap string node) (p k n : string) (v : node) :
  m !! k = Some v -> child_name p k = Some n -> In n (dir_entries m p).
Proof.
  intros Hk Hc. apply list_elem_of_In. unfold dir_entries.
  apply list_elem_of_omap. exists (k, v). split; [|exact Hc].
  apply elem_of_map_to_list. exact Hk.
Qed.

Section Listing.

Variable http_get : string -> option (string * string) -> result string.

Lemma downloadable_name (m : gmap string node) (internal_id : string) (r : page_ref) :
  downloadable http_get m internal_id r = true ->
  filename r = PStr (name_of r) /\ plain_name (name_of r) = true.
Proof.
  unfold downloadable, name_of. destruct (filename r) as [| | |f| |]; try discriminate.
  intros H. apply andb_prop in H as [H _]. apply andb_prop in H as [H _]. auto.
Qed.

Lemma dir_entries_stored (internal_id : string) (refs : list page_ref) (m : gmap string node) :
  Forall (fun r => plain_name (name_of r) = true) refs ->
  NoDup (map name_of refs) ->
  (forall r, In r refs -> m !! target internal_id r = None) ->
  Permutation (dir_entries (stored http_get internal_id refs m) internal_id)
    (map name_of refs ++ dir_entries m internal_id).
Proof.
  intros Hplain. revert m. induction Hplain as [|r refs Hr Hrest IH]; intros m Hnd Hfree.
  - reflexivity.
  - simpl in Hnd. apply NoDup_cons in Hnd as [Hnotin Hnd]. simpl stored.
    rewrite IH.
    + rewrite (dir_entries_insert m _ _ internal_id (Hfree r (or_introl eq_refl))).
      unfold target at 1. rewrite (child_name_join internal_id (name_of r) Hr).
      simpl. symmetry. apply Permutation_middle.
    + exact Hnd.
    + intros r' Hr'. rewrite lookup_insert_ne; [apply Hfree; right; exact Hr'|].
      unfold target. intros E. apply os_path_join_inj in E.
      * apply Hnotin. rewrite E. apply list_elem_of_In, in_map. exact Hr'.
      * exact Hr.
      * rewrite List.Forall_forall in Hrest. auto.
Qed.

Lemma listing_after_download
  (refs : list page_ref) (internal_id : string) (m : gmap string node) :
  plain_name internal_id = true ->
  m !! internal_id = None ->
  dir_entries m internal_id = [] ->
  forallb (downloadable http_get m internal_id) refs = true ->
  NoDup (map name_of refs) ->
  Permutation
    (dir_entries (stored http_get internal_id refs (<[internal_id := Dir]> m)) internal_id)
    (map name_of refs).
Proof.
  intros Hid Hnone Hempty Hall Hnd.
  assert (Forall (fun r => plain_name (name_of r) = true) refs) as Hplain.
  { rewrite forallb_forall in Hall. apply List.Forall_forall. intros r Hr.
    apply (downloadable_name m internal_id r (Hall r Hr)). }
  rewrite dir_entries_stored; [|exact Hplain|exact Hnd|].
  - rewrite (dir_entries_insert _ _ Dir internal_id Hnone).
    rewrite (child_name_self internal_id Hid), Hempty, app_nil_r. reflexivity.
  - intros r Hr. rewrite List.Forall_forall in Hplain.
    rewrite lookup_insert_ne.
    + destruct (m !! target internal_id r) as [v|] eqn:E; [|reflexivity].
      exfalso. pose proof (entry_of_lookup m internal_id _ (name_of r) v E
                             (child_name_join internal_id _ (Hplain r Hr))) as Hin.
      rewrite Hempty in Hin. exact Hin.
    + intros E. symmetry in E.
      apply (join_not_dir internal_id (name_of r) Hid (Hplain r Hr)). exact E.
Qed.

Lemma ensured_absent (d : string) (w : world) :
  fs w !! d = None -> fs (ensured d w) = <[d := Dir]> (fs w).
Proof. intros H. unfold ensured. rewrite H. reflexivity. Qed.


End Listing.


(** ** [create_djvu] *)

Section AssemblyFailure.

Variable exec : list string -> gmap string node -> exec_result.

Lemma for_each_run_fails
  (pre post : list (list string)) (c : list string) (code : Z)
  (after : gmap string node) (w : world) :
  all_succeed exec pre (fs w) = true ->
  exec c (run_all exec pre (fs w)) = Exited code after ->
  code <> 0%Z ->
  for_each (pre ++ c :: post) (run exec) w
  = (Raise (CalledProcessError c code),
     World after (trace w ++ map ERun pre ++ [ERun c])).
Proof.
  intros Hpre Hc Hcode. rewrite for_each_app, (for_each_run exec pre w Hpre).
  rewrite for_each_cons, run_eq. cbn [fs trace]. rewrite Hc.
  apply Z.eqb_neq in Hcode. rewrite Hcode. rewrite <- app_assoc. reflexivity.
Qed.

(** X14.  The first external command that exits with a status other
    than 0 ends the assembly with the error of that command: the
    commands before it have run, none after it is run, and the
    temporary file is not removed. *)
Theorem X14_failing_command_ends_assembly
  (dirname : string) (w : world) (pre post : list (list string)) (c : list string)
  (code : Z) (after : gmap string node) :
  fs w !! dirname = Some Dir ->
  assembly_commands dirname (book_djvu "output" dirname)
    (pages_of (dir_entries (fs w) dirname)) = pre ++ c :: post ->
  all_succeed exec pre (fs (ensured "output" w)) = true ->
  exec c (run_all exec pre (fs (ensured "output" w))) = Exited code after ->
  code <> 0%Z ->
  create_djvu exec dirname w
  = (Raise (CalledProcessError c code),
     World after (trace (ensured "output" w) ++ map ERun pre ++ [ERun c]))
  /\ ~ In (ERemove tmp_djvu) (map ERun pre ++ [ERun c]).
Proof.
  intros Hd Hcmds Hpre Hc Hcode. split.
  - rewrite (create_djvu_eq exec dirname w Hd), Hcmds.
    rewrite (for_each_run_fails pre post c code after _ Hpre Hc Hcode). reflexivity.
  - intros H. apply in_app_or in H as [H|[H|[]]]; [|discriminate].
    apply in_map_iff in H as (x & Hx & _). discriminate.
Qed.

End AssemblyFailure.

Lemma X14_witness :
  fs Scenario.downloaded_a1 !! "a1" = Some Dir
  /\ assembly_commands "a1" (book_djvu "output" "a1")
       (pages_of (dir_entries (fs Scenario.downloaded_a1) "a1"))
     = [["cjb2"; "-clean"; "a1/p1.tif"; "tmp.djvu"];
        ["djvm"; "-c"; "output/a1.djvu"; "tmp.djvu"]]
         ++ ["cjb2"; "-clean"; "a1/p2.tif"; "tmp.djvu"]
         :: [["djvm"; "-i"; "output/a1.djvu"; "tmp.djvu"];
             ["cjb2"; "-clean"; "a1/p3.tif"; "tmp.djvu"];
             ["djvm"; "-i"; "output/a1.djvu"; "tmp.djvu"]]
  /\ fst (create_djvu More.failing_tools "a1" Scenario.downloaded_a1)
     = Raise (CalledProcessError ["cjb2"; "-clean"; "a1/p2.tif"; "tmp.djvu"] 1)
  /\ fs (snd (create_djvu More.failing_tools "a1" Scenario.downloaded_a1)) !! "tmp.djvu"
     = Some (File "djvu of TIFF one").
Proof.
  split; [reflexivity|]. split; [vm_compute; reflexivity|].
  destruct (X14_failing_command_ends_assembly More.failing_tools "a1"
              Scenario.downloaded_a1
              [["cjb2"; "-clean"; "a1/p1.tif"; "tmp.djvu"];
               ["djvm"; "-c"; "output/a1.djvu"; "tmp.djvu"]]
              [["djvm"; "-i"; "output/a1.djvu"; "tmp.djvu"];
               ["cjb2"; "-clean"; "a1/p3.tif"; "tmp.djvu"];
               ["djvm"; "-i"; "output/a1.djvu"; "tmp.djvu"]]
              ["cjb2"; "-clean"; "a1/p2.tif"; "tmp.djvu"] 1
              (run_all More.failing_tools
                 [["cjb2"; "-clean"; "a1/p1.tif"; "tmp.djvu"];
                  ["djvm"; "-c"; "output/a1.djvu"; "tmp.djvu"]]
                 (fs (ensured "output" Scenario.downloaded_a1))))
    as [Heq _].
  - reflexivity.
  - vm_compute. reflexivity.
  - vm_compute. reflexivity.
  - vm_compute. reflexivity.
  - discriminate.
  - rewrite Heq. split; [reflexivity|]. vm_compute. reflexivity.
Defined.

(** ** The error log *)

Lemma universal_newlines_nonempty (s : string) :
  s <> EmptyString -> universal_newlines s <> EmptyString.
Proof.
  induction s as [|c s IH]; [congruence|]. intros _. rewrite universal_newlines_cons.
  destruct (Ascii.eqb c ch_cr); [|discriminate].
  destruct s as [|c' s']; [discriminate|].
  destruct (Ascii.eqb c' ch_lf); [apply IH; discriminate|discriminate].
Qed.

Lemma readlines_nonempty (s : string) : s <> EmptyString -> readlines s <> [].
Proof.
  destruct s as [|a s]; [congruence|]. intros _. simpl.
  destruct (Ascii.eqb a ch_lf); [discriminate|].
  destruct (readlines s); discriminate.
Qed.

Lemma lines_text_app (ids1 ids2 : list string) :
  lines_text (ids1 ++ ids2) = (lines_text ids1 ++ lines_text ids2)%string.
Proof.
  induction ids1 as [|id ids1 IH]; [reflexivity|].
  simpl. rewrite IH.
  change (String ch_lf (lines_text ids1 ++ lines_text ids2))
    with (String ch_lf (lines_text ids1) ++ lines_text ids2)%string.
  rewrite string_app_assoc. reflexivity.
Qed.

Lemma string_app_empty (s : string) : (s ++ "")%string = s.
Proof.
  induction s as [|c s IH]; [reflexivity|].
  change (String c (s ++ "") = String c s). rewrite IH. reflexivity.
Qed.

Lemma logged_cons (error_log id : string) (ids : list string) (m : gmap string node) :
  logged error_log ids
    (<[error_log := File (text_of m error_log ++ id ++ String ch_lf EmptyString)]> m)
  = logged error_log (id :: ids) m.
Proof.
  unfold logged. destruct ids as [|id' ids].
  - simpl lines_text. reflexivity.
  - unfold text_of at 1. rewrite lookup_insert_eq, insert_insert_eq.
    change (lines_text (id :: id' :: ids))
      with (id ++ String ch_lf (lines_text (id' :: ids)))%string.
    rewrite !string_app_assoc. reflexivity.
Qed.

Section SkippingLoop.

Variable str_of : pyval -> string.
Variable json_loads : string -> result pyval.
Variable http_get : string -> option (string * string) -> result string.
Variable exec : list string -> gmap string node -> exec_result.
Variable username password : string.

Local Abbreviation process :=
  (process_article str_of json_loads http_get exec username password).
Local Abbreviation is_malformed := (malformed_article json_loads http_get username password).
Local Abbreviation skipped := (skip_events username password).

Lemma skipping_loop (error_log : string) (ids : list string) (w : world) :
  forallb is_malformed ids = true ->
  appendable (fs w) error_log = true ->
  for_each ids (process error_log) w
  = (Ok tt,
     World (logged error_log ids (fs w)) (trace w ++ flat_map (skipped error_log) ids)).
Proof.
  revert w. induction ids as [|id ids IH]; intros w Hall Hlog.
  - simpl. rewrite app_nil_r. destruct w; reflexivity.
  - simpl in Hall. apply andb_prop in Hall as [Hid Hall].
    unfold malformed_article in Hid.
    destruct (http_get (generate_url id) (Some (username, password))) as [body|] eqn:Hget;
      [|discriminate].
    destruct (json_loads body) as [response|] eqn:Hload; [|discriminate].
    apply andb_prop in Hid as [Hshape Hzero].
    assert (get_image_paths str_of json_loads body = Raise IndexError) as Hx.
    { unfold get_image_paths. rewrite Hload. apply extract_zero_tiff; assumption. }
    rewrite for_each_cons.
    rewrite (process_article_index str_of json_loads http_get exec username password
               error_log id _ _
               (download_extract_raises str_of json_loads http_get username password
                  id body _ w Hget Hx)).
    rewrite log_weird_article_ok by exact Hlog. cbn [fetched fs trace].
    rewrite IH.
    + cbn [fs trace]. rewrite logged_cons. unfold skip_events. simpl flat_map.
      rewrite <- !app_assoc. reflexivity.
    + exact Hall.
    + cbn [fs]. unfold appendable. rewrite lookup_insert_eq. reflexivity.
Qed.

(** X15.  When every identifier of a list is a malformed article, the
    loop ends normally and has done nothing but ask for the metadata
    and write the log: the log holds what it held before followed by
    the identifiers in list order, one per line, every other path is as
    it was, and no command has been run. *)
Theorem X15_skipped_identifiers_logged_in_order
  (error_log : string) (ids : list string) (w : world) :
  forallb is_malformed ids = true ->
  appendable (fs w) error_log = true ->
  ids <> [] ->
  exists w',
    for_each ids (process error_log) w = (Ok tt, w')
    /\ fs w' !! error_log = Some (File (text_of (fs w) error_log ++ lines_text ids))
    /\ (forall p, p <> error_log -> fs w' !! p = fs w !! p)
    /\ trace w' = trace w ++ flat_map (skipped error_log) ids
    /\ commands_run (trace w') = commands_run (trace w).
Proof.
  intros Hall Hlog Hne. eexists. split; [apply skipping_loop; assumption|].
  cbn [fs trace]. unfold logged. destruct ids as [|id ids]; [congruence|].
  split; [apply lookup_insert_eq|]. split; [|split; [reflexivity|]].
  - intros p Hp. apply lookup_insert_ne. congruence.
  - unfold commands_run. rewrite omap_app.
    assert (omap (fun e => match e with ERun args => Some args | _ => None end)
              (flat_map (skipped error_log) (id :: ids)) = []) as ->.
    { generalize (id :: ids). intros l. induction l as [|x l IHl]; [reflexivity|].
      simpl. exact IHl. }
    apply app_nil_r.
Qed.

(** X16.  When every line of the input list names a malformed article
    and there is no log yet, [main] ends normally and the log it has
    written reads back, through the loader, as the list of identifiers
    it loaded: the log of a run is an input list for the next. *)
Theorem X16_log_reads_back_as_input
  (strftime : string -> string) (filename content : string) (w : world) :
  fs w !! filename = Some (File content) ->
  forallb is_malformed (map strip (readlines (universal_newlines content))) = true ->
  content <> EmptyString ->
  fs w !! start_error_log strftime = None ->
  parent_check (fs w) (start_error_log strftime) = Ok tt ->
  exists w',
    main str_of json_loads http_get exec strftime username password
      {[ "list" := filename ]} w = (Ok tt, w')
    /\ file_to_list (start_error_log strftime) w'
       = (Ok (map strip (readlines (universal_newlines content))), w').
Proof.
  intros Hf Hall Hne Hnolog Hparent.
  pose proof (strip_lines_clean content) as Hclean.
  pose proof (readlines_nonempty _ (universal_newlines_nonempty content Hne)) as Hlines.
  set (ids := map strip (readlines (universal_newlines content))) in *.
  set (log := start_error_log strftime) in *.
  assert (ids <> []) as Hids.
  { unfold ids. intros H. apply map_eq_nil in H. contradiction. }
  assert (appendable (fs w) log = true) as Hlog.
  { unfold appendable. rewrite Hnolog, Hparent. reflexivity. }
  assert (file_to_list filename w = (Ok ids, w)) as Hread.
  { unfold file_to_list, open_read. io_unfold. rewrite Hf. reflexivity. }
  eexists. split.
  - unfold main. cbv zeta. rewrite lookup_singleton_eq.
    rewrite (bind_ok _ _ _ _ _ Hread).
    rewrite (bind_ok (print _) _ w (World (fs w) (trace w ++ [EPrint _])) tt eq_refl).
    fold log.
    rewrite (skipping_loop log ids (World (fs w) (trace w ++ [EPrint _])) Hall Hlog).
    reflexivity.
  - unfold file_to_list, open_read. io_unfold. cbn [fs].
    unfold logged. destruct ids as [|id ids'] eqn:E; [congruence|].
    rewrite lookup_insert_eq. unfold text_of. rewrite Hnolog.
    change ("" ++ lines_text (id :: ids'))%string with (lines_text (id :: ids')).
    rewrite (universal_newlines_id _ (lines_text_no_cr _ Hclean)).
    rewrite (readlines_lines_text _ Hclean). reflexivity.
Qed.

End SkippingLoop.

Lemma X15_witness :
  forallb (malformed_article Scenario.loads Scenario.http Scenario.username
             Scenario.password) ["a2"; "a2"] = true
  /\ appendable (fs Scenario.start) Scenario.error_log = true
  /\ ["a2"; "a2"] <> ([] : list string)
  /\ exists w',
       for_each ["a2"; "a2"] Scenario.process Scenario.start = (Ok tt, w')
       /\ fs w' !! Scenario.error_log
          = Some (File (text_of (fs Scenario.start) Scenario.error_log
                          ++ lines_text ["a2"; "a2"]))
       /\ (forall p, p <> Scenario.error_log -> fs w' !! p = fs Scenario.start !! p)
       /\ trace w'
          = trace Scenario.start
              ++ flat_map (skip_events Scenario.username Scenario.password
                             Scenario.error_log) ["a2"; "a2"]
       /\ commands_run (trace w') = commands_run (trace Scenario.start).
Proof.
  split; [reflexivity|]. split; [reflexivity|]. split; [discriminate|].
  apply (X15_skipped_identifiers_logged_in_order Scenario.str_unused Scenario.loads
           Scenario.http Scenario.tools Scenario.username Scenario.password
           Scenario.error_log ["a2"; "a2"] Scenario.start);
    [reflexivity|reflexivity|discriminate].
Defined.

Lemma X16_witness :
  fs More.start_twice !! "ids.txt" = Some (File More.twice_a2)
  /\ forallb (malformed_article Scenario.loads Scenario.http Scenario.username
                Scenario.password)
       (map strip (readlines (universal_newlines More.twice_a2))) = true
  /\ More.twice_a2 <> EmptyString
  /\ fs More.start_twice !! start_error_log Scenario.clock = None
  /\ parent_check (fs More.start_twice) (start_error_log Scenario.clock) = Ok tt
  /\ exists w',
       main Scenario.str_unused Scenario.loads Scenario.http Scenario.tools Scenario.clock
         Scenario.username Scenario.password {[ "list" := "ids.txt" ]} More.start_twice
       = (Ok tt, w')
       /\ file_to_list (start_error_log Scenario.clock) w'
          = (Ok (map strip (readlines (universal_newlines More.twice_a2))), w').
Proof.
  split; [reflexivity|]. split; [reflexivity|]. split; [discriminate|].
  split; [reflexivity|]. split; [reflexivity|].
  apply (X16_log_reads_back_as_input Scenario.str_unused Scenario.loads Scenario.http
           Scenario.tools Scenario.username Scenario.password Scenario.clock
           "ids.txt" More.twice_a2 More.start_twice);
    try reflexivity. discriminate.
Defined.

(** ** The start of a run *)

Section Startup.

Variable str_of : pyval -> string.
Variable json_loads : string -> result pyval.
Variable http_get : string -> option (string * string) -> result string.
Variable exec : list string -> gmap string node -> exec_result.
Variable which : string -> option string.
Variable strftime : string -> string.
Variable username password : string.


End Startup.


(** ** What a run adds to the trace *)

Section Emits.

Context {A B : Type}.
Variable P : event -> Prop.

Lemma emits_silent (c : io A) :
  (forall w, trace (snd (c w)) = trace w) -> emits P c.
Proof.
  intros H w. exists []. rewrite app_nil_r. split; [apply H|constructor].
Qed.

Lemma emits_ret (a : A) : emits P (mret a : io A).
Proof. apply emits_silent. reflexivity. Qed.

Lemma emits_raise (e : exn) : emits P (raise e : io A).
Proof. apply emits_silent. reflexivity. Qed.

Lemma emits_lift (r : result A) : emits P (lift r).
Proof. apply emits_silent. reflexivity. Qed.

(** The continuation matters only at the values that [c] can
    return. *)
Lemma emits_bind_value (c : io A) (k : A -> io B) :
  emits P c ->
  (forall a, (exists w w', c w = (Ok a, w')) -> emits P (k a)) ->
  emits P (c ≫= k).
Proof.
  intros Hc Hk w. destruct (Hc w) as (d1 & E1 & F1). io_unfold.
  destruct (c w) as [[a|e] w1] eqn:E; simpl in E1.
  - destruct (Hk a (ex_intro _ w (ex_intro _ w1 E)) w1) as (d2 & E2 & F2).
    exists (d1 ++ d2).
    rewrite E2, E1, app_assoc. split; [reflexivity|]. apply Forall_app; auto.
  - exists d1. auto.
Qed.

Lemma emits_bind (c : io A) (k : A -> io B) :
  emits P c -> (forall a, emits P (k a)) -> emits P (c ≫= k).
Proof. intros Hc Hk. apply emits_bind_value; auto. Qed.

Lemma emits_lift_bind (r : result A) (k : A -> io B) :
  (forall a, r = Ok a -> emits P (k a)) -> emits P (lift r ≫= k).
Proof.
  intros Hk w. io_unfold. destruct r as [a|e].
  - apply (Hk a eq_refl).
  - exists []. rewrite app_nil_r. split; [reflexivity|constructor].
Qed.

Lemma emits_for_each (l : list A) (body : A -> io unit) :
  (forall x, In x l -> emits P (body x)) -> emits P (for_each l body).
Proof.
  induction l as [|x l IH]; intros H.
  - intros w. exists []. rewrite app_nil_r. split; [reflexivity|constructor].
  - intros w. rewrite for_each_cons.
    destruct (H x (or_introl eq_refl) w) as (d1 & E1 & F1).
    destruct (body x w) as [[[]|e] w1]; simpl in E1.
    + destruct (IH (fun y Hy => H y (or_intror Hy)) w1) as (d2 & E2 & F2).
      exists (d1 ++ d2). rewrite E2, E1, app_assoc. split; [reflexivity|].
      apply Forall_app; auto.
    + exists d1. auto.
Qed.

Lemma emits_try (body handler : io A) :
  emits P body -> emits P handler -> emits P (try_except_IndexError body handler).
Proof.
  intros Hb Hh w. unfold try_except_IndexError.
  destruct (Hb w) as (d1 & E1 & F1).
  destruct (body w) as [[a|e] w1]; simpl in E1; [exists d1; auto|].
  destruct e; try (exists d1; split; [exact E1|exact F1]).
  destruct (Hh w1) as (d2 & E2 & F2). exists (d1 ++ d2).
  rewrite E2, E1, app_assoc. split; [reflexivity|]. apply Forall_app; auto.
Qed.

End Emits.

Section EmitsCalls.

Variable P : event -> Prop.

Lemma emits_emit (e : event) : P e -> emits P (emit e).
Proof.
  intros H w. exists [e]. split; [reflexivity|]. constructor; [exact H|constructor].
Qed.

Lemma emits_os_mkdir (p : string) : P (EMkdir p) -> emits P (os_mkdir p).
Proof.
  intros H. unfold os_mkdir. apply emits_bind; [apply emits_emit; exact H|].
  intros _. apply emits_silent. intros w.
  destruct (fs w !! p); [reflexivity|]. destruct (parent_check (fs w) p); reflexivity.
Qed.

Lemma emits_open_write (p content : string) :
  P (EWrite p content) -> emits P (open_write p content).
Proof.
  intros H. unfold open_write. apply emits_bind; [apply emits_emit; exact H|].
  intros _. apply emits_silent. intros w.
  destruct (fs w !! p) as [[c|]|]; try reflexivity;
    destruct (parent_check (fs w) p); reflexivity.
Qed.

Lemma emits_open_append (p text : string) :
  P (EAppend p text) -> emits P (open_append p text).
Proof.
  intros H. unfold open_append. apply emits_bind; [apply emits_emit; exact H|].
  intros _. apply emits_silent. intros w.
  destruct (fs w !! p) as [[c|]|]; try reflexivity.
  destruct (parent_check (fs w) p); reflexivity.
Qed.

Lemma emits_os_remove (p : string) : P (ERemove p) -> emits P (os_remove p).
Proof.
  intros H. unfold os_remove. apply emits_bind; [apply emits_emit; exact H|].
  intros _. apply emits_silent. intros w.
  destruct (fs w !! p) as [[c|]|]; reflexivity.
Qed.

Lemma emits_os_listdir (p : string) : emits P (os_listdir p).
Proof.
  apply emits_silent. intros w. unfold os_listdir.
  destruct (fs w !! p) as [[c|]|]; reflexivity.
Qed.

Lemma emits_open_read (p : string) : emits P (open_read p).
Proof.
  apply emits_silent. intros w. unfold open_read.
  destruct (fs w !! p) as [[c|]|]; reflexivity.
Qed.

Lemma emits_requests_get
  (http_get : string -> option (string * string) -> result string)
  (u : string) (auth : option (string * string)) :
  P (EGet u auth) -> emits P (requests_get http_get u auth).
Proof.
  intros H. unfold requests_get. apply emits_bind; [apply emits_emit; exact H|].
  intros _. apply emits_lift.
Qed.

Lemma emits_run (exec : list string -> gmap string node -> exec_result)
  (args : list string) :
  P (ERun args) -> emits P (run exec args).
Proof.
  intros H. unfold run. apply emits_bind; [apply emits_emit; exact H|].
  intros _. apply emits_silent. intros w. destruct (exec args (fs w)); reflexivity.
Qed.

Lemma emits_create_directory (d : string) :
  P (EMkdir d) -> emits P (create_directory d).
Proof.
  intros H. unfold create_directory.
  apply emits_bind; [apply emits_silent; reflexivity|]. intros present.
  apply emits_bind; [|intros _; apply emits_ret].
  destruct (negb present); [apply emits_os_mkdir; exact H|apply emits_ret].
Qed.

Lemma create_directory_returns (d r : string) :
  (exists w w', create_directory d w = (Ok r, w')) -> r = d.
Proof.
  intros (w & w' & H). rewrite create_directory_eq in H.
  destruct (fs w !! d); [congruence|].
  destruct (parent_check (fs w) d); congruence.
Qed.

Lemma emits_download_images
  (http_get : string -> option (string * string) -> result string)
  (url_list : list page_ref) (internal_id : string) :
  P (EMkdir internal_id) ->
  (forall r, In r url_list ->
     P (EPrintRef r) /\ P (EGet (url r) None)
     /\ forall f body, P (EWrite (os_path_join internal_id f) body)) ->
  emits P (download_images http_get url_list internal_id).
Proof.
  intros Hm Hr. unfold download_images.
  apply emits_bind_value; [apply emits_create_directory; exact Hm|].
  intros target_dir Hret. apply create_directory_returns in Hret as ->.
  apply emits_for_each. intros r Hin. destruct (Hr r Hin) as (Hp & Hg & Hw).
  apply emits_lift_bind. intros path Hpath.
  apply emits_bind; [apply emits_emit; exact Hp|]. intros _.
  apply emits_bind; [apply emits_requests_get; exact Hg|]. intros img_data.
  apply emits_open_write. unfold join_filename in Hpath.
  destruct (filename r); try discriminate. inversion Hpath; subst. apply Hw.
Qed.

Lemma emits_create_djvu (exec : list string -> gmap string node -> exec_result)
  (dirname : string) :
  P (EMkdir "output") ->
  (forall args, (exists rest, args = "cjb2" :: rest \/ args = "djvm" :: rest) ->
     P (ERun args)) ->
  P (ERemove "tmp.djvu") ->
  emits P (create_djvu exec dirname).
Proof.
  intros Hm Hr Hd. unfold create_djvu.
  apply emits_bind; [apply emits_create_directory; exact Hm|]. intros target_dir.
  apply emits_bind; [apply emits_os_listdir|]. intros listing.
  apply emits_bind; [|intros _; apply emits_os_remove; exact Hd].
  apply emits_for_each. intros [i page] _. unfold convert_page.
  apply emits_bind; [apply emits_run; apply Hr; eauto|]. intros _.
  destruct (i =? 1)%nat; apply emits_run; apply Hr; eauto.
Qed.

End EmitsCalls.

Lemma references_url_prefix
  (str_of : pyval -> string) (json_loads : string -> result pyval)
  (text : string) (refs : list page_ref) (r : page_ref) :
  get_image_paths str_of json_loads text = Ok refs -> In r refs ->
  exists rest,
    url r = ("http://dokumentlager.nordiskamuseet.se/binaryDownload/" ++ rest)%string.
Proof.
  unfold get_image_paths, extract_paths. intros H Hin.
  destruct (json_loads text) as [parsed|]; simpl in H; [|discriminate].
  destruct (py_iter parsed) as [records|]; simpl in H; [|discriminate].
  destruct (comp_filter resource_cond records) as [resources|]; simpl in H; [|discriminate].
  destruct (comp_map original_file resources) as [files|]; simpl in H; [|discriminate].
  apply comp_map_inv in H. induction H as [|fil r' files refs Hr _ IH]; [destruct Hin|].
  destruct Hin as [->|Hin]; [|exact (IH Hin)].
  apply path_of_file_inv in Hr as (_ & rf & pf & mt & _ & _ & Hu).
  rewrite Hu. unfold file_url. eauto.
Qed.

Section Policy.

Variable str_of : pyval -> string.
Variable json_loads : string -> result pyval.
Variable http_get : string -> option (string * string) -> result string.
Variable exec : list string -> gmap string node -> exec_result.
Variable strftime : string -> string.
Variable username password : string.

Variable ids : list string.
Variable error_log : string.

Local Abbreviation permitted := (allowed ids username password error_log).

Lemma emits_download_files_of_article (internal_id : string) :
  In internal_id ids ->
  emits permitted
    (download_files_of_article str_of json_loads http_get username password internal_id).
Proof.
  intros Hin. unfold download_files_of_article.
  apply emits_bind; [apply emits_emit; split; exact I|]. intros _. cbv zeta.
  apply emits_bind.
  { apply emits_requests_get. split; simpl; eauto. }
  intros response. apply emits_lift_bind. intros refs Hrefs.
  apply emits_download_images.
  - split; simpl; auto.
  - intros r Hr. split; [split; exact I|]. split.
    + split; [|exact I]. simpl. exact (references_url_prefix _ _ _ _ r Hrefs Hr).
    + intros f body. split; simpl; eauto.
Qed.

Lemma emits_process_article (int_id : string) :
  In int_id ids ->
  emits permitted
    (process_article str_of json_loads http_get exec username password error_log int_id).
Proof.
  intros Hin. unfold process_article. apply emits_bind.
  - apply emits_try.
    + apply emits_bind; [apply emits_download_files_of_article; exact Hin|].
      intros _. apply emits_ret.
    + apply emits_bind; [|intros _; apply emits_ret].
      unfold log_weird_article. apply emits_open_append. split; simpl; eauto.
  - intros proceed. destruct proceed; [|apply emits_ret].
    apply emits_create_djvu.
    + split; simpl; auto.
    + intros args Hargs. split; [exact I|exact Hargs].
    + split; simpl; auto.
Qed.

End Policy.

Section MainPolicy.

Variable str_of : pyval -> string.
Variable json_loads : string -> result pyval.
Variable http_get : string -> option (string * string) -> result string.
Variable exec : list string -> gmap string node -> exec_result.
Variable strftime : string -> string.
Variable username password : string.

Local Abbreviation run_main :=
  (main str_of json_loads http_get exec strftime username password).

Lemma bind_raises {A B} (c : io A) (k : A -> io B) (w w' : world) (e : exn) :
  c w = (Raise e, w') -> (c ≫= k) w = (Raise e, w').
Proof. intros H. io_unfold. rewrite H. reflexivity. Qed.

Lemma main_allowed (arguments : gmap string string) (w : world) :
  exists delta,
    trace (snd (run_main arguments w)) = trace w ++ delta
    /\ Forall (allowed (loaded_ids arguments w) username password
                 (start_error_log strftime)) delta.
Proof.
  unfold main, loaded_ids. cbv zeta.
  assert (forall (A : Type) (e : exn) (k : A -> io unit) (c : io A),
            c w = (Raise e, w) ->
            exists delta,
              trace (snd ((c ≫= k) w)) = trace w ++ delta
              /\ Forall (allowed [] username password (start_error_log strftime)) delta)
    as Hfail.
  { intros A e k c Hc. rewrite (bind_raises c k w w e Hc). exists [].
    rewrite app_nil_r. split; [reflexivity|constructor]. }
  destruct (arguments !! "list") as [filename|]; [|eapply Hfail; reflexivity].
  destruct (fs w !! filename) as [[content|]|] eqn:Hf.
  - set (loaded := map strip (readlines (universal_newlines content))).
    assert (file_to_list filename w = (Ok loaded, w)) as Hread.
    { unfold file_to_list, open_read. io_unfold. rewrite Hf. reflexivity. }
    rewrite (bind_ok _ _ _ _ _ Hread).
    apply (emits_bind (allowed loaded username password (start_error_log strftime))).
    + apply emits_emit. split; exact I.
    + intros _. apply emits_for_each. intros x Hx.
      apply emits_process_article. exact Hx.
  - eapply Hfail. unfold file_to_list, open_read. io_unfold. rewrite Hf. reflexivity.
  - eapply Hfail. unfold file_to_list, open_read. io_unfold. rewrite Hf. reflexivity.
Qed.

(** X18.  Whatever the server, the tools and the files do, a run of
    [main] sends the credentials only to the metadata URL of an
    identifier it has loaded, and every request it makes without
    credentials goes to a binaryDownload URL. *)
Theorem X18_credentials_go_to_metadata_only
  (arguments : gmap string string) (w : world) :
  exists delta,
    trace (snd (run_main arguments w)) = trace w ++ delta
    /\ Forall (request_allowed (loaded_ids arguments w) username password) delta.
Proof.
  destruct (main_allowed arguments w) as (delta & E & F).
  exists delta. split; [exact E|].
  eapply Forall_impl; [exact F|]. intros e [He _]. exact He.
Qed.

(** X19.  Whatever the server, the tools and the files do, a run of
    [main] makes directories only for the output and for identifiers
    it has loaded, writes only files joined to such an identifier,
    appends only lines of such identifiers to the error log, removes
    nothing but the temporary file, and runs no program but [cjb2] and
    [djvm]. *)
Theorem X19_changes_stay_within_bounds
  (arguments : gmap string string) (w : world) :
  exists delta,
    trace (snd (run_main arguments w)) = trace w ++ delta
    /\ Forall (change_allowed (loaded_ids arguments w) (start_error_log strftime)) delta.
Proof.
  destruct (main_allowed arguments w) as (delta & E & F).
  exists delta. split; [exact E|].
  eapply Forall_impl; [exact F|]. intros e [_ He]. exact He.
Qed.

End MainPolicy.

(** ** An article from the request to the document *)

Section WholeArticle.

Variable str_of : pyval -> string.
Variable json_loads : string -> result pyval.
Variable http_get : string -> option (string * string) -> result string.
Variable exec : list string -> gmap string node -> exec_result.
Variable username password : string.

Local Abbreviation process :=
  (process_article str_of json_loads http_get exec username password).
Local Abbreviation after_download := (downloaded http_get username password).

Lemma download_files_of_article_ok
  (internal_id body : string) (refs : list page_ref) (w : world) :
  plain_name internal_id = true ->
  workspace_usable (fs w) internal_id = true ->
  http_get (generate_url internal_id) (Some (username, password)) = Ok body ->
  get_image_paths str_of json_loads body = Ok refs ->
  forallb (downloadable http_get (fs w) internal_id) refs = true ->
  download_files_of_article str_of json_loads http_get username password internal_id w
  = (Ok tt, after_download internal_id refs w).
Proof.
  intros Hid Hws Hget Hx Hall. unfold download_files_of_article. cbv zeta.
  rewrite (bind_ok (print _) _ w (World (fs w) (trace w ++ [EPrint _])) tt eq_refl).
  assert (requests_get http_get (generate_url internal_id) (Some (username, password))
            (World (fs w) (trace w ++ [EPrint ("Downloading files of " ++ internal_id)]))
          = (Ok body, fetched username password internal_id w)) as Hreq.
  { unfold requests_get, fetched. io_unfold. simpl. rewrite Hget, <- app_assoc. reflexivity. }
  rewrite (bind_ok _ _ _ _ _ Hreq).
  assert (lift (get_image_paths str_of json_loads body)
            (fetched username password internal_id w)
          = (Ok refs, fetched username password internal_id w)) as Hlift
    by (unfold lift; rewrite Hx; reflexivity).
  rewrite (bind_ok _ _ _ _ _ Hlift).
  apply (download_images_eq http_get refs internal_id
           (fetched username password internal_id w)); assumption.
Qed.


End WholeArticle.

